(** * mariadb-mcp: the structured-logging subsystem

    A shallow embedding of [src/logging_config.py] (the formatter
    [CustomJsonFormatter.add_fields], [setup_logger], [get_logger],
    [setup_third_party_logging]) and of [src/config.py] (the settings read
    from the environment and the module body that validates them),
    together with the fragment of Python's [logging], [pathlib] and
    [pythonjsonlogger] libraries these functions call (CPython 3.11,
    python-json-logger 2.0).

    Conventions.
    - Python [str] values are modelled by [string]; the model covers ASCII
      text (environment values, logger names).
    - Python [int] is [Z]; [dict] with string keys is [gmap string _].
    - Stateful code runs in the monad [M]: a state transformer over [World]
      whose result is either a returned value or a raised exception; the
      state is threaded through a raise, as Python keeps the mutations made
      before an exception.
    - The body of [config.py] also writes log records: it runs in [Script],
      the same monad together with the list of the records emitted.
    - The first half of the file holds the definitions, the second half the
      theorems. *)

From Stdlib Require Import ZArith String Ascii List Bool Lia.
From stdpp Require Import base gmap strings list pretty.

Local Open Scope string_scope.
Local Open Scope Z_scope.
Local Open Scope list_scope.

(** ** Python values *)

(** The values that flow through the code under study: [None], booleans,
    integers, strings, dictionaries (abstracted to their keys) and opaque
    objects (always truthy). *)
Inductive pyval : Type :=
  | PNone
  | PBool (b : bool)
  | PInt (z : Z)
  | PStr (s : string)
  | PDict (keys : list string)
  | PObj (repr : string).

(** Python truthiness, as used by [if x:] and [not x]. *)
Definition truthy (v : pyval) : bool :=
  match v with
  | PNone => false
  | PBool b => b
  | PInt z => negb (z =? 0)
  | PStr s => negb (String.eqb s "")
  | PDict keys => match keys with [] => false | _ => true end
  | PObj _ => true
  end.

(** [d.get(k)]: the value, or [None] when the key is missing. *)
Definition dict_get (d : gmap string pyval) (k : string) : pyval :=
  default PNone (d !! k).

(** Exceptions raised by the code and the library fragment. *)
Inductive exn : Type :=
  | ValueError (msg : string)
  | TypeError (msg : string)
  | KeyError (key : string)
  | OSError (operation : string).

(** ** Strings *)

Definition is_lower (c : ascii) : bool :=
  let n := nat_of_ascii c in ((97 <=? n) && (n <=? 122))%nat.

(** [str.upper] on ASCII text: a-z are shifted to A-Z, every other
    character is kept. *)
Definition upper_char (c : ascii) : ascii :=
  if is_lower c then ascii_of_nat (nat_of_ascii c - 32) else c.

Fixpoint upper (s : string) : string :=
  match s with
  | EmptyString => EmptyString
  | String c s' => String (upper_char c) (upper s')
  end.

Definition chars (s : string) : list ascii := list_ascii_of_string s.
Definition of_chars (l : list ascii) : string := string_of_list_ascii l.

(** [s.startswith(p)] *)
Definition startswith (p s : string) : bool := String.prefix p s.

(** ** The [logging] module: levels and module attributes *)

Definition CRITICAL : Z := 50.
Definition FATAL : Z := CRITICAL.
Definition ERROR : Z := 40.
Definition WARNING : Z := 30.
Definition WARN : Z := WARNING.
Definition INFO : Z := 20.
Definition DEBUG : Z := 10.
Definition NOTSET : Z := 0.

Definition BASIC_FORMAT : string := "%(levelname)s:%(name)s:%(message)s".

(** [logging._nameToLevel] *)
Definition _nameToLevel : list (string * Z) :=
  [ ("CRITICAL", CRITICAL); ("FATAL", FATAL); ("ERROR", ERROR);
    ("WARN", WARNING); ("WARNING", WARNING); ("INFO", INFO);
    ("DEBUG", DEBUG); ("NOTSET", NOTSET) ].

Fixpoint assoc {A : Type} (k : string) (l : list (string * A)) : option A :=
  match l with
  | [] => None
  | (k', v) :: l' => if String.eqb k k' then Some v else assoc k l'
  end.

(** The attributes of the [logging] module whose name holds no lower-case
    letter: the only names [getattr(logging, s.upper(), d)] can reach. *)
Definition logging_attributes : list (string * pyval) :=
  [ ("BASIC_FORMAT", PStr BASIC_FORMAT);
    ("CRITICAL", PInt CRITICAL); ("DEBUG", PInt DEBUG);
    ("ERROR", PInt ERROR); ("FATAL", PInt FATAL); ("INFO", PInt INFO);
    ("NOTSET", PInt NOTSET); ("WARN", PInt WARN);
    ("WARNING", PInt WARNING);
    ("_STYLES", PDict [ "%"; "{"; "$" ]) ].

(** [getattr(logging, name, default)] for an upper-cased [name]. *)
Definition logging_getattr (name : string) (dflt : pyval) : pyval :=
  default dflt (assoc name logging_attributes).

(** [logging._checkLevel] *)
Definition _checkLevel (level : pyval) : exn + Z :=
  match level with
  | PInt z => inr z
  | PBool b => inr (Z.b2z b)
  | PStr s =>
      match assoc s _nameToLevel with
      | Some z => inr z
      | None => inl (ValueError ("Unknown level: " +:+ s))
      end
  | _ => inl (TypeError "Level not an integer or a valid string")
  end.

(** ** Paths and the file system ([pathlib], [os]) *)

(** A path: whether it is anchored at [/], and its components. A relative
    path is read from the working directory. *)
Definition Path : Type := bool * list string.

Fixpoint split_on (sep : ascii) (l cur : list ascii) : list (list ascii) :=
  match l with
  | [] => [rev cur]
  | c :: l' =>
      if Ascii.eqb c sep then rev cur :: split_on sep l' []
      else split_on sep l' (c :: cur)
  end.

(** [Path(s)]: empty components and [.] components are dropped. *)
Definition Path_of (s : string) : Path :=
  (startswith "/" s,
   filter (λ p, p ≠ "" ∧ p ≠ ".") (of_chars <$> split_on "/" (chars s) [])).

(** [Path.parent] *)
Definition Path_parent (p : Path) : Path := (p.1, removelast p.2).

(** The part of the file system the code touches: which directories and
    files exist, and whether the process may create or open an entry. *)
Record FileSystem : Type := {
  dirs : gset Path;
  files : gset Path;
  permits : Path → bool
}.

(** The anchor and the working directory always exist. *)
Definition is_dir (fs : FileSystem) (p : Path) : bool :=
  match p.2 with
  | [] => true
  | _ => bool_decide (p ∈ dirs fs)
  end.

Definition is_file (fs : FileSystem) (p : Path) : bool :=
  bool_decide (p ∈ files fs).

Definition add_dir (p : Path) (fs : FileSystem) : FileSystem :=
  {| dirs := {[p]} ∪ dirs fs; files := files fs; permits := permits fs |}.

Definition add_file (p : Path) (fs : FileSystem) : FileSystem :=
  {| dirs := dirs fs; files := {[p]} ∪ files fs; permits := permits fs |}.

(** [Path.mkdir(parents=True, exist_ok=True)], on the reversed component
    list: an existing directory is accepted, a missing parent is created
    first, and a name taken by a file or a refused creation raises
    [OSError]. *)
Fixpoint mkdir_parents (anchored : bool) (rparts : list string)
    (fs : FileSystem) : exn + FileSystem :=
  let p : Path := (anchored, rev rparts) in
  if is_dir fs p then inr fs
  else if is_file fs p then inl (OSError "mkdir")
  else
    match rparts with
    | [] => inr fs
    | _ :: rparent =>
        match mkdir_parents anchored rparent fs with
        | inl e => inl e
        | inr fs' =>
            if permits fs' p then inr (add_dir p fs') else inl (OSError "mkdir")
        end
    end.

(** [open(p, 'a')] *)
Definition open_append (p : Path) (fs : FileSystem) : exn + FileSystem :=
  if is_dir fs p then inl (OSError "open")
  else if negb (is_dir fs (Path_parent p)) then inl (OSError "open")
  else if negb (permits fs p) then inl (OSError "open")
  else inr (add_file p fs).

(** ** Handlers and loggers *)

Record Formatter : Type := { fmt : string; datefmt : string }.

Inductive HandlerKind : Type :=
  | StreamHandler
  | RotatingFileHandler (baseFilename : Path) (maxBytes backupCount : Z).

(** A handler object; [hid] is its identity. *)
Record Handler : Type := {
  hid : nat;
  hkind : HandlerKind;
  hlevel : Z;
  hformatter : option Formatter
}.

Definition setFormatter (h : Handler) (f : Formatter) : Handler :=
  {| hid := hid h; hkind := hkind h; hlevel := hlevel h;
     hformatter := Some f |}.

(** [hdlr in handlers]: handlers compare by identity. *)
Definition handler_in (h : Handler) (hs : list Handler) : bool :=
  existsb (λ h', Nat.eqb (hid h') (hid h)) hs.

(** [handlers.remove(hdlr)]: drops the first occurrence. *)
Fixpoint list_remove (h : Handler) (hs : list Handler) : list Handler :=
  match hs with
  | [] => []
  | h' :: hs' => if Nat.eqb (hid h') (hid h) then hs' else h' :: list_remove h hs'
  end.

Record Logger : Type := {
  level : Z;
  propagate : bool;
  handlers : list Handler;
  disabled : bool
}.

(** [Logger(name)]: the state of a logger just created. *)
Definition new_Logger : Logger :=
  {| level := NOTSET; propagate := true; handlers := []; disabled := false |}.

Definition with_level (z : Z) (l : Logger) : Logger :=
  {| level := z; propagate := propagate l; handlers := handlers l;
     disabled := disabled l |}.

Definition with_propagate (b : bool) (l : Logger) : Logger :=
  {| level := level l; propagate := b; handlers := handlers l;
     disabled := disabled l |}.

Definition with_handlers (hs : list Handler) (l : Logger) : Logger :=
  {| level := level l; propagate := propagate l; handlers := hs;
     disabled := disabled l |}.

(** A logger handle: the library's root logger, or a named logger of the
    manager's dictionary. *)
Inductive LoggerRef : Type :=
  | RootLogger
  | Named (name : string).

(** ** The world: the logging manager, handler identities, the file system *)

Record World : Type := {
  root : Logger;
  loggerDict : gmap string Logger;
  manager_disable : Z;
  next_id : nat;
  fs : FileSystem
}.

Definition set_root (l : Logger) (w : World) : World :=
  {| root := l; loggerDict := loggerDict w;
     manager_disable := manager_disable w; next_id := next_id w; fs := fs w |}.

Definition set_loggerDict (d : gmap string Logger) (w : World) : World :=
  {| root := root w; loggerDict := d;
     manager_disable := manager_disable w; next_id := next_id w; fs := fs w |}.

Definition set_next_id (n : nat) (w : World) : World :=
  {| root := root w; loggerDict := loggerDict w;
     manager_disable := manager_disable w; next_id := n; fs := fs w |}.

Definition set_fs (f : FileSystem) (w : World) : World :=
  {| root := root w; loggerDict := loggerDict w;
     manager_disable := manager_disable w; next_id := next_id w; fs := f |}.

(** The logger a handle stands for. *)
Definition logger_at (w : World) (r : LoggerRef) : Logger :=
  match r with
  | RootLogger => root w
  | Named n => default new_Logger (loggerDict w !! n)
  end.

Definition update_logger (r : LoggerRef) (f : Logger → Logger) (w : World)
    : World :=
  match r with
  | RootLogger => set_root (f (root w)) w
  | Named n => set_loggerDict (alter f n (loggerDict w)) w
  end.

(** ** The monad of stateful, fallible code *)

Inductive outcome (A : Type) : Type :=
  | Returns (a : A)
  | Raises (e : exn).
Arguments Returns {A} a.
Arguments Raises {A} e.

Definition M (A : Type) : Type := World → outcome A * World.

#[global] Instance M_ret : MRet M := λ A a w, (Returns a, w).

#[global] Instance M_bind : MBind M := λ A B f m w,
  match m w with
  | (Returns a, w') => f a w'
  | (Raises e, w') => (Raises e, w')
  end.

Definition raise {A : Type} (e : exn) : M A := λ w, (Raises e, w).

Definition modify (f : World → World) : M unit := λ w, (Returns tt, f w).

Definition lift_fs (op : FileSystem → exn + FileSystem) : M unit := λ w,
  match op (fs w) with
  | inl e => (Raises e, w)
  | inr fs' => (Returns tt, set_fs fs' w)
  end.

(** [for x in l: body(x)] *)
Fixpoint for_each {A : Type} (l : list A) (body : A → M unit) : M unit :=
  match l with
  | [] => mret tt
  | x :: l' => body x;; for_each l' body
  end.

(** ** Library operations on loggers *)

(** [Manager.getLogger(name)]: the logger of that name, created with the
    default state when the dictionary has none. The dictionary of the model
    holds the loggers only; the placeholders the manager keeps for missing
    ancestors serve to maintain [logger.parent], see [parent_of]. *)
Definition Manager_getLogger (name : string) : M LoggerRef := λ w,
  match loggerDict w !! name with
  | Some _ => (Returns (Named name), w)
  | None =>
      (Returns (Named name),
       set_loggerDict (<[name := new_Logger]> (loggerDict w)) w)
  end.

(** [logging.getLogger(name)] *)
Definition logging_getLogger (name : string) : M LoggerRef :=
  if String.eqb name "" || String.eqb name "root" then mret RootLogger
  else Manager_getLogger name.

(** [logger.setLevel(level)] *)
Definition Logger_setLevel (r : LoggerRef) (v : pyval) : M unit :=
  match _checkLevel v with
  | inl e => raise e
  | inr z => modify (update_logger r (with_level z))
  end.

(** [logger.propagate = b] *)
Definition Logger_set_propagate (r : LoggerRef) (b : bool) : M unit :=
  modify (update_logger r (with_propagate b)).

(** [logger.handlers[:]] *)
Definition Logger_handlers (r : LoggerRef) : M (list Handler) := λ w,
  (Returns (handlers (logger_at w r)), w).

(** [logger.removeHandler(hdlr)] *)
Definition Logger_removeHandler (r : LoggerRef) (h : Handler) : M unit :=
  modify (update_logger r (λ l,
    if handler_in h (handlers l) then with_handlers (list_remove h (handlers l)) l
    else l)).

(** [logger.addHandler(hdlr)] *)
Definition Logger_addHandler (r : LoggerRef) (h : Handler) : M unit :=
  modify (update_logger r (λ l,
    if handler_in h (handlers l) then l
    else with_handlers (handlers l ++ [h]) l)).

(** A new handler object takes the next free identity. *)
Definition new_handler (k : HandlerKind) : M Handler := λ w,
  (Returns {| hid := next_id w; hkind := k; hlevel := NOTSET;
              hformatter := None |},
   set_next_id (S (next_id w)) w).

(** [logging.StreamHandler()] *)
Definition new_StreamHandler : M Handler := new_handler StreamHandler.

(** [RotatingFileHandler(filename, maxBytes=.., backupCount=..)]: the file
    is opened for appending when the handler is built. *)
Definition new_RotatingFileHandler (filename : Path) (maxBytes backupCount : Z)
    : M Handler :=
  lift_fs (open_append filename);;
  new_handler (RotatingFileHandler filename maxBytes backupCount).

(** [path.mkdir(parents=True, exist_ok=True)] *)
Definition Path_mkdir (p : Path) : M unit :=
  lift_fs (mkdir_parents p.1 (rev p.2)).

(** ** [logging_config.py]: initialisation and the logger registry *)

Definition LOGGER_NAME : string := "mariadb_mcp".

(** [CustomJsonFormatter(fmt=.., datefmt=..)] *)
Definition CustomJsonFormatter (fmt datefmt : string) : Formatter :=
  {| fmt := fmt; datefmt := datefmt |}.

(** The arguments of [setup_logger]. *)
Record LoggerConfig : Type := {
  log_level : string;
  log_file_path : string;
  log_max_bytes : Z;
  log_backup_count : Z;
  enable_console : bool;
  enable_file : bool
}.

(** The default values of the arguments of [setup_logger]. *)
Definition default_config : LoggerConfig :=
  {| log_level := "INFO"; log_file_path := "logs/mcp_server.log";
     log_max_bytes := 10 * 1024 * 1024; log_backup_count := 5;
     enable_console := true; enable_file := true |}.

Definition setup_logger (c : LoggerConfig) : M LoggerRef :=
  logger ← logging_getLogger LOGGER_NAME;
  Logger_setLevel logger (logging_getattr (upper (log_level c)) (PInt INFO));;
  Logger_set_propagate logger false;;
  existing ← Logger_handlers logger;
  for_each existing (λ handler, Logger_removeHandler logger handler);;
  let formatter :=
    CustomJsonFormatter
      "%(timestamp)s %(level)s %(name)s %(module)s %(funcName)s:%(lineno)d %(message)s"
      "%Y-%m-%d %H:%M:%S" in
  (if enable_console c then
     console_handler ← new_StreamHandler;
     Logger_addHandler logger (setFormatter console_handler formatter)
   else mret tt);;
  (if enable_file c then
     let log_file := Path_of (log_file_path c) in
     Path_mkdir (Path_parent log_file);;
     file_handler ← new_RotatingFileHandler log_file (log_max_bytes c)
                      (log_backup_count c);
     Logger_addHandler logger (setFormatter file_handler formatter)
   else mret tt);;
  mret logger.

(** [get_logger(name)]; [name] is [None] or a string, and [if name:] takes
    the first branch for a non-empty string only. *)
Definition get_logger (name : option string) : M LoggerRef :=
  match name with
  | Some n =>
      if negb (String.eqb n "") then logging_getLogger (LOGGER_NAME +:+ "." +:+ n)
      else logging_getLogger LOGGER_NAME
  | None => logging_getLogger LOGGER_NAME
  end.

Definition third_party_loggers : list string :=
  [ "fastmcp"; "uvicorn"; "uvicorn.access"; "uvicorn.error"; "starlette";
    "asyncmy"; "httpx"; "httpcore" ].

Definition setup_third_party_logging (level : string) : M unit :=
  let log_level := logging_getattr (upper level) (PInt WARNING) in
  for_each third_party_loggers (λ logger_name,
    third_party_logger ← logging_getLogger logger_name;
    Logger_setLevel third_party_logger log_level;;
    Logger_set_propagate third_party_logger true).

(** ** [config.py]: the logging settings read from the environment *)

(** [os.getenv(key, default)] *)
Definition getenv (env : gmap string string) (key dflt : string) : string :=
  default dflt (env !! key).

(** [int(os.getenv(key, default))] with an integer default: the default is
    used as it is when the variable is unset, otherwise the text is parsed by
    [int], which raises [ValueError] on text that is no integer literal.
    [int_of_str] stands for Python's [int] on strings. *)
Definition getenv_int (int_of_str : string → option Z)
    (env : gmap string string) (key : string) (dflt : Z) : exn + Z :=
  match env !! key with
  | None => inr dflt
  | Some s =>
      match int_of_str s with
      | Some z => inr z
      | None => inl (ValueError "invalid literal for int() with base 10")
      end
  end.

(** The configuration [config.py] passes to [setup_logger]. *)
Definition load_logger_config (int_of_str : string → option Z)
    (env : gmap string string) : exn + LoggerConfig :=
  let LOG_LEVEL := upper (getenv env "LOG_LEVEL" "INFO") in
  let LOG_FILE_PATH := getenv env "LOG_FILE" "logs/mcp_server.log" in
  match getenv_int int_of_str env "LOG_MAX_BYTES" (10 * 1024 * 1024) with
  | inl e => inl e
  | inr LOG_MAX_BYTES =>
      match getenv_int int_of_str env "LOG_BACKUP_COUNT" 5 with
      | inl e => inl e
      | inr LOG_BACKUP_COUNT =>
          inr {| log_level := LOG_LEVEL; log_file_path := LOG_FILE_PATH;
                 log_max_bytes := LOG_MAX_BYTES;
                 log_backup_count := LOG_BACKUP_COUNT;
                 enable_console := true; enable_file := true |}
      end
  end.

(** [THIRD_PARTY_LOG_LEVEL] *)
Definition load_third_party_level (env : gmap string string) : string :=
  upper (getenv env "THIRD_PARTY_LOG_LEVEL" "WARNING").

(** ** The logger hierarchy *)

Definition is_dot (c : ascii) : bool := Ascii.eqb c ".".

(** The candidate parents of a logger, nearest first, as
    [Manager._fixupParents] enumerates them:
    [i = name.rfind(".")], then while [i > 0] the candidate is [name[:i]]
    and [i = name.rfind(".", 0, i - 1)]. The name is scanned from its end;
    [skip] tells that the character in hand is the one at [i - 1], which
    the bounded [rfind] does not look at. *)
Fixpoint scan_ancestors (rname : list ascii) (skip : bool)
    : list (list ascii) :=
  match rname with
  | [] => []
  | c :: rest =>
      if skip then scan_ancestors rest false
      else if is_dot c then
        match rest with
        | [] => []
        | _ :: _ => rest :: scan_ancestors rest true
        end
      else scan_ancestors rest false
  end.

Definition ancestor_names (n : string) : list string :=
  (λ r, of_chars (rev r)) <$> scan_ancestors (rev (chars n)) false.

Definition is_logger (w : World) (n : string) : bool :=
  bool_decide (is_Some (loggerDict w !! n)).

(** [logger.parent]: the nearest candidate that is a logger, and the root
    logger when there is none. The manager stores this reference in the
    logger ([_fixupParents] sets it when the logger is created and
    [_fixupChildren] moves it when a nearer candidate is created later);
    the model computes it from the dictionary. The two agree unless a
    logger is named by a proper prefix of the word [root], which
    [_fixupChildren] confuses with the root logger; no name of this program
    is one. *)
Definition parent_of (w : World) (n : string) : LoggerRef :=
  match List.find (is_logger w) (ancestor_names n) with
  | Some a => Named a
  | None => RootLogger
  end.

(** The loop [while c: ...; c = c.parent if c.propagate else None] of
    [Logger.callHandlers]: the loggers whose handlers are consulted. The
    root logger has no parent. *)
Fixpoint hierarchy_walk (fuel : nat) (w : World) (c : LoggerRef)
    : list LoggerRef :=
  match fuel with
  | O => []
  | S fuel' =>
      c :: (if propagate (logger_at w c) then
              match c with
              | RootLogger => []
              | Named n => hierarchy_walk fuel' w (parent_of w n)
              end
            else [])
  end.

(** A parent has a shorter name than its child, so the length of the name
    bounds the number of steps. *)
Definition walk_fuel (c : LoggerRef) : nat :=
  match c with
  | RootLogger => 1
  | Named n => S (S (String.length n))
  end.

Definition visited (w : World) (c : LoggerRef) : list LoggerRef :=
  hierarchy_walk (walk_fuel c) w c.

(** What [Logger.callHandlers] does with a record of severity [levelno]:
    the handlers that handle it, and whether the library's last-resort
    handler (standard error, WARNING) is used because no handler was found. *)
Record Delivery : Type := {
  delivered : list Handler;
  to_lastResort : bool
}.

(** The handlers of the loggers the loop consults. *)
Definition found (w : World) (c : LoggerRef) : list Handler :=
  concat ((λ r, handlers (logger_at w r)) <$> visited w c).

Definition callHandlers (w : World) (c : LoggerRef) (levelno : Z) : Delivery :=
  match found w c with
  | [] => {| delivered := []; to_lastResort := WARNING <=? levelno |}
  | _ :: _ =>
      {| delivered := List.filter (λ h, hlevel h <=? levelno) (found w c);
         to_lastResort := false |}
  end.

(** [Logger.getEffectiveLevel]: the first non-zero level on the way to the
    root logger. *)
Fixpoint effective_level (fuel : nat) (w : World) (c : LoggerRef) : Z :=
  match fuel with
  | O => NOTSET
  | S fuel' =>
      let l := level (logger_at w c) in
      if negb (l =? 0) then l
      else
        match c with
        | RootLogger => NOTSET
        | Named n => effective_level fuel' w (parent_of w n)
        end
  end.

Definition getEffectiveLevel (w : World) (c : LoggerRef) : Z :=
  effective_level (walk_fuel c) w c.

(** [Logger.isEnabledFor(level)] *)
Definition isEnabledFor (w : World) (c : LoggerRef) (lvl : Z) : bool :=
  if disabled (logger_at w c) then false
  else if lvl <=? manager_disable w then false
  else getEffectiveLevel w c <=? lvl.

(** [logger.name] *)
Definition logger_name (c : LoggerRef) : string :=
  match c with
  | RootLogger => "root"
  | Named n => n
  end.

(** ** Log records *)

(** [record.msg]: text, or a dictionary (which [pythonjsonlogger] merges
    into the output). *)
Inductive message : Type :=
  | MsgStr (s : string)
  | MsgDict (d : gmap string pyval).

(** A [logging.LogRecord]: the attributes the formatter reads, and the
    other entries of [record.__dict__] (the caller's [extra]). Records
    without exception or stack information are modelled. *)
Record LogRecord : Type := {
  name : string;
  levelno : Z;
  levelname : string;
  module : string;
  funcName : string;
  lineno : Z;
  msg : message;
  created : Z;
  process : option Z;
  thread : option Z;
  extra : gmap string pyval
}.

(** The attribute names of a fresh [LogRecord]. *)
Definition LogRecord_attributes : list string :=
  [ "name"; "msg"; "args"; "levelname"; "levelno"; "pathname"; "filename";
    "module"; "exc_info"; "exc_text"; "stack_info"; "lineno"; "funcName";
    "created"; "msecs"; "relativeCreated"; "thread"; "threadName";
    "processName"; "process" ].

(** [logging.getLevelName] *)
Definition getLevelName (lvl : Z) : string :=
  if lvl =? CRITICAL then "CRITICAL"
  else if lvl =? ERROR then "ERROR"
  else if lvl =? WARNING then "WARNING"
  else if lvl =? INFO then "INFO"
  else if lvl =? DEBUG then "DEBUG"
  else if lvl =? NOTSET then "NOTSET"
  else "Level " +:+ pretty lvl.

(** Where a logging call was made. *)
Record CallSite : Type := {
  site_module : string;
  site_funcName : string;
  site_lineno : Z
}.

(** What the runtime supplies to a record: the time, the process id
    ([os.getpid()], or [None] when [logging.logProcesses] is off) and the
    thread id ([threading.get_ident()], or [None] when [logging.logThreads]
    is off); and [strftime] over local time. *)
Record Runtime : Type := {
  time_now : Z;
  getpid : option Z;
  get_ident : option Z;
  strftime : string → Z → string
}.

(** [Logger.makeRecord]: a key of [extra] that is an attribute of the record,
    or [message] or [asctime], raises [KeyError]. *)
Definition makeRecord (rt : Runtime) (n : string) (lvl : Z) (site : CallSite)
    (m : message) (ex : gmap string pyval) : exn + LogRecord :=
  match
    List.find (λ k, bool_decide (k ∈ "message" :: "asctime" :: LogRecord_attributes))
      (map_to_list ex).*1
  with
  | Some k => inl (KeyError k)
  | None =>
      inr {| name := n; levelno := lvl; levelname := getLevelName lvl;
             module := site_module site; funcName := site_funcName site;
             lineno := site_lineno site; msg := m; created := time_now rt;
             process := getpid rt; thread := get_ident rt; extra := ex |}
  end.

Definition opt_int (o : option Z) : pyval :=
  match o with
  | Some z => PInt z
  | None => PNone
  end.

(** [record.getMessage()] as [JsonFormatter.format] stores it in
    [record.message]: empty for a dictionary message. *)
Definition record_message (r : LogRecord) : string :=
  match msg r with
  | MsgStr s => s
  | MsgDict _ => ""
  end.

(** The [message_dict] that [JsonFormatter.format] hands to [add_fields]. *)
Definition record_message_dict (r : LogRecord) : gmap string pyval :=
  match msg r with
  | MsgStr _ => ∅
  | MsgDict d => d
  end.

(** [record.__dict__.get(k)] *)
Definition record_get (r : LogRecord) (k : string) : pyval :=
  match
    assoc k
      [ ("name", PStr (name r)); ("levelno", PInt (levelno r));
        ("levelname", PStr (levelname r)); ("module", PStr (module r));
        ("funcName", PStr (funcName r)); ("lineno", PInt (lineno r));
        ("created", PInt (created r)); ("process", opt_int (process r));
        ("thread", opt_int (thread r));
        ("message", PStr (record_message r)) ]
  with
  | Some v => v
  | None => dict_get (extra r) k
  end.

(** ** [pythonjsonlogger.jsonlogger.JsonFormatter] *)

Definition RESERVED_ATTRS : list string :=
  [ "args"; "asctime"; "created"; "exc_info"; "exc_text"; "filename";
    "funcName"; "levelname"; "levelno"; "lineno"; "module"; "msecs";
    "message"; "msg"; "name"; "pathname"; "process"; "processName";
    "relativeCreated"; "stack_info"; "thread"; "threadName" ].

Inductive parse_state : Type :=
  | Outside
  | AfterPercent
  | InField (racc : list ascii).

(** [JsonFormatter.parse]: the names between [%(] and [)] in the format
    string (the matches of the pattern [%\((.+?)\)]). *)
Fixpoint parse_fields (l : list ascii) (st : parse_state) : list string :=
  match l with
  | [] => []
  | c :: l' =>
      match st with
      | Outside =>
          parse_fields l' (if Ascii.eqb c "%" then AfterPercent else Outside)
      | AfterPercent =>
          parse_fields l'
            (if Ascii.eqb c "(" then InField []
             else if Ascii.eqb c "%" then AfterPercent else Outside)
      | InField racc =>
          if Ascii.eqb c "010" then parse_fields l' Outside
          else
            match racc with
            | [] => parse_fields l' (InField [c])
            | _ :: _ =>
                if Ascii.eqb c ")" then
                  of_chars (rev racc) :: parse_fields l' Outside
                else parse_fields l' (InField (c :: racc))
            end
      end
  end.

(** [self._required_fields] *)
Definition required_fields (self : Formatter) : list string :=
  parse_fields (chars (fmt self)) Outside.

(** [self._skip_fields]: the required fields and the reserved attributes. *)
Definition skip_fields (self : Formatter) : list string :=
  required_fields self ++ RESERVED_ATTRS.

(** [merge_record_extra(record, target, reserved)]: every entry of
    [record.__dict__] whose key is not reserved and does not start with an
    underscore is written into [target]. *)
Definition merge_record_extra (r : LogRecord) (target : gmap string pyval)
    (reserved : list string) : gmap string pyval :=
  filter (λ kv, (kv.1 ∉ reserved) ∧ (startswith "_" (kv.1) = false)) (extra r)
    ∪ target.

(** [JsonFormatter.add_fields] for a formatter built from [fmt] and
    [datefmt] alone (no renamed or static fields, no [timestamp] option):
    the required fields are read from the record, then the message dictionary
    is merged, then the extras. *)
Definition JsonFormatter_add_fields (self : Formatter)
    (log_record : gmap string pyval) (r : LogRecord)
    (message_dict : gmap string pyval) : gmap string pyval :=
  let with_required :=
    foldl (λ d field, <[field := record_get r field]> d) log_record
      (required_fields self) in
  let with_message := message_dict ∪ with_required in
  merge_record_extra r with_message (skip_fields self).

(** [Formatter.formatTime(record, datefmt)] *)
Definition formatTime (rt : Runtime) (r : LogRecord) (datefmt : string)
    : string :=
  strftime rt datefmt (created r).

(** ** [CustomJsonFormatter.add_fields] *)

Definition add_fields (rt : Runtime) (self : Formatter)
    (log_record : gmap string pyval) (r : LogRecord)
    (message_dict : gmap string pyval) : gmap string pyval :=
  let log_record := JsonFormatter_add_fields self log_record r message_dict in
  let log_record :=
    if negb (truthy (dict_get log_record "timestamp")) then
      <["timestamp" := PStr (formatTime rt r (datefmt self))]> log_record
    else log_record in
  let log_record := <["level" := PStr (levelname r)]> log_record in
  let log_record := <["logger" := PStr (name r)]> log_record in
  let log_record := <["module" := PStr (module r)]> log_record in
  let log_record := <["function" := PStr (funcName r)]> log_record in
  let log_record := <["line" := PInt (lineno r)]> log_record in
  let log_record :=
    match process r with
    | Some pid =>
        if truthy (PInt pid) then <["process" := PInt pid]> log_record
        else log_record
    | None => log_record
    end in
  let log_record :=
    match thread r with
    | Some tid =>
        if truthy (PInt tid) then <["thread" := PInt tid]> log_record
        else log_record
    | None => log_record
    end in
  log_record.

(** [formatter.format(record)] up to serialisation: the structured record
    built from an empty dictionary. *)
Definition format_record (rt : Runtime) (self : Formatter) (r : LogRecord)
    : gmap string pyval :=
  add_fields rt self ∅ r (record_message_dict r).

(** ** Emission *)

(** What a logging call produced: the record and where it went. *)
Record Emission : Type := {
  emitted : LogRecord;
  delivery : Delivery
}.

(** [logger.log(level, msg, extra=extra)]: nothing happens below the
    threshold; otherwise the record is made and handed to the handlers. *)
Definition Logger_log (w : World) (rt : Runtime) (c : LoggerRef) (lvl : Z)
    (site : CallSite) (m : message) (ex : gmap string pyval)
    : exn + option Emission :=
  if isEnabledFor w c lvl then
    match makeRecord rt (logger_name c) lvl site m ex with
    | inl e => inl e
    | inr r =>
        inr (Some {| emitted := r; delivery := callHandlers w c lvl |})
    end
  else inr None.

(** ** Sequences of operations *)

Inductive operation : Type :=
  | Initialize (c : LoggerConfig)
  | GetLogger (n : option string)
  | SuppressThirdParty (lvl : string).

(** The world an operation leaves, whether it returned or raised. *)
Definition run_operation (o : operation) (w : World) : World :=
  match o with
  | Initialize c => (setup_logger c w).2
  | GetLogger n => (get_logger n w).2
  | SuppressThirdParty lvl => (setup_third_party_logging lvl w).2
  end.

Definition run_operations (ops : list operation) (w : World) : World :=
  foldl (λ w o, run_operation o w) w ops.

(** ** [config.py]: the module body *)

Definition is_upper (c : ascii) : bool :=
  let n := nat_of_ascii c in ((65 <=? n) && (n <=? 90))%nat.

(** [str.lower] on ASCII text: A-Z are shifted to a-z, every other
    character is kept. *)
Definition lower_char (c : ascii) : ascii :=
  if is_upper c then ascii_of_nat (nat_of_ascii c + 32) else c.

Fixpoint lower (s : string) : string :=
  match s with
  | EmptyString => EmptyString
  | String c s' => String (lower_char c) (lower s')
  end.

(** [s.split(sep)] for a separator of one character: the pieces between
    the separators, empty pieces included. *)
Definition str_split (sep : ascii) (s : string) : list string :=
  of_chars <$> split_on sep (chars s) [].

(** [os.getenv(key)] as a Python value: [None] when the variable is unset. *)
Definition opt_str (o : option string) : pyval :=
  match o with
  | Some s => PStr s
  | None => PNone
  end.

(** [x = os.getenv(key)], then [x = x.split(",")] if [x] is truthy and the
    default list otherwise. *)
Definition getenv_list (env : gmap string string) (key : string)
    (dflt : list string) : list string :=
  match env !! key with
  | Some s => if truthy (PStr s) then str_split "," s else dflt
  | None => dflt
  end.

(** [str(x)] as an f-string formats an optional string and a boolean. *)
Definition str_of_opt (o : option string) : string :=
  match o with
  | Some s => s
  | None => "None"
  end.

Definition str_of_bool (b : bool) : string := if b then "True" else "False".

(** The module-level names of [config.py]. *)
Record Settings : Type := {
  JWT_AUDIENCE : string;
  JWT_ISSUER : string;
  LOG_LEVEL : string;
  LOG_FILE_PATH : string;
  LOG_MAX_BYTES : Z;
  LOG_BACKUP_COUNT : Z;
  THIRD_PARTY_LOG_LEVEL : string;
  ALLOWED_ORIGINS : list string;
  ALLOWED_HOSTS : list string;
  logger : LoggerRef;
  DB_HOST : string;
  DB_PORT : Z;
  DB_USER : option string;
  DB_PASSWORD : option string;
  DB_NAME : option string;
  DB_CHARSET : option string;
  MCP_READ_ONLY : bool;
  MCP_MAX_POOL_SIZE : Z;
  EMBEDDING_PROVIDER : option string;
  OPENAI_API_KEY : option string;
  GEMINI_API_KEY : option string;
  HF_MODEL : option string
}.

(** Code that also writes log records: the monad [M] together with the list
    of the records emitted so far, which a raise keeps. *)
Definition Script (A : Type) : Type :=
  World → outcome A * World * list Emission.

Definition Script_ret {A : Type} (a : A) : Script A := λ w, (Returns a, w, []).

Definition Script_bind {A B : Type} (m : Script A) (f : A → Script B)
    : Script B := λ w,
  match m w with
  | (Returns a, w', t) => let '(r, w'', t') := f a w' in (r, w'', t ++ t')
  | (Raises e, w', t) => (Raises e, w', t)
  end.

Definition Script_lift {A : Type} (m : M A) : Script A := λ w,
  let '(r, w') := m w in (r, w', []).

Definition Script_raise {A : Type} (e : exn) : Script A :=
  λ w, (Raises e, w, []).

(** A pure computation that may raise. *)
Definition Script_try {A : Type} (r : exn + A) : Script A :=
  match r with
  | inl e => Script_raise e
  | inr a => Script_ret a
  end.

(** [logger.log(level, text)] at line [line] of [config.py]; [rt line] is
    the runtime when that line runs. *)
Definition Script_log (rt : Z → Runtime) (lg : LoggerRef) (lvl : Z) (line : Z)
    (text : string) : Script unit := λ w,
  let site := {| site_module := "config"; site_funcName := "<module>";
                 site_lineno := line |} in
  match Logger_log w (rt line) lg lvl site (MsgStr text) ∅ with
  | inl e => (Raises e, w, [])
  | inr None => (Returns tt, w, [])
  | inr (Some em) => (Returns tt, w, [em])
  end.

(** [logger.error(text)] and [logger.info(text)] *)
Definition Logger_error (rt : Z → Runtime) (lg : LoggerRef) (line : Z)
    (text : string) : Script unit := Script_log rt lg ERROR line text.

Definition Logger_info (rt : Z → Runtime) (lg : LoggerRef) (line : Z)
    (text : string) : Script unit := Script_log rt lg INFO line text.

Declare Scope script_scope.
Delimit Scope script_scope with script.
Notation "x ⇐ m ; k" := (Script_bind m (λ x, k))
  (at level 20, m at level 100, k at level 200, right associativity,
   only parsing) : script_scope.
Notation "m ;;; k" := (Script_bind m (λ _, k))
  (at level 100, k at level 200, right associativity, only parsing)
  : script_scope.

(** The body of [config.py], run in the environment [env] as [load_dotenv()]
    has completed it. The result holds the module-level names the module
    ends with. *)
Definition config_module (int_of_str : string → option Z) (rt : Z → Runtime)
    (env : gmap string string) : Script Settings :=
  (let JWT_AUDIENCE := getenv env "JWT_AUDIENCE" "mariadb_ops_server" in
   let JWT_ISSUER := getenv env "JWT_ISSUER" "http://localhost" in
   c ⇐ Script_try (load_logger_config int_of_str env);
   let THIRD_PARTY_LOG_LEVEL := load_third_party_level env in
   let ALLOWED_ORIGINS :=
     getenv_list env "ALLOWED_ORIGINS"
       [ "http://localhost"; "http://127.0.0.1"; "http://*";
         "https://localhost"; "https://127.0.0.1";
         "vscode-file://vscode-app" ] in
   let ALLOWED_HOSTS :=
     getenv_list env "ALLOWED_HOSTS" [ "localhost"; "127.0.0.1" ] in
   logger ⇐ Script_lift (setup_logger c);
   Script_lift (setup_third_party_logging THIRD_PARTY_LOG_LEVEL);;;
   let DB_HOST := getenv env "DB_HOST" "localhost" in
   DB_PORT ⇐ Script_try (getenv_int int_of_str env "DB_PORT" 3306);
   let DB_USER := env !! "DB_USER" in
   let DB_PASSWORD := env !! "DB_PASSWORD" in
   let DB_NAME := env !! "DB_NAME" in
   let DB_CHARSET := env !! "DB_CHARSET" in
   let MCP_READ_ONLY :=
     String.eqb (lower (getenv env "MCP_READ_ONLY" "true")) "true" in
   MCP_MAX_POOL_SIZE ⇐
     Script_try (getenv_int int_of_str env "MCP_MAX_POOL_SIZE" 10);
   let EMBEDDING_PROVIDER :=
     match env !! "EMBEDDING_PROVIDER" with
     | Some s => if truthy (PStr s) then Some (lower s) else None
     | None => None
     end in
   let OPENAI_API_KEY := env !! "OPENAI_API_KEY" in
   let GEMINI_API_KEY := env !! "GEMINI_API_KEY" in
   let HF_MODEL := env !! "HF_MODEL" in
   (if negb (truthy (opt_str DB_USER) && truthy (opt_str DB_PASSWORD)) then
      Logger_error rt logger 73
        "Database credentials (DB_USER, DB_PASSWORD) not found in environment variables or .env file."
    else Script_ret tt);;;
   Logger_info rt logger 76
     ("Selected Embedding Provider: " +:+ str_of_opt EMBEDDING_PROVIDER);;;
   EMBEDDING_PROVIDER ⇐
     (if bool_decide (EMBEDDING_PROVIDER = Some "openai") then
        (if negb (truthy (opt_str OPENAI_API_KEY)) then
           Logger_error rt logger 79
             "EMBEDDING_PROVIDER is 'openai' but OPENAI_API_KEY is missing.";;;
           Script_raise
             (ValueError
                "OpenAI API key is required when EMBEDDING_PROVIDER is 'openai'.")
         else Script_ret tt);;;
        Script_ret EMBEDDING_PROVIDER
      else if bool_decide (EMBEDDING_PROVIDER = Some "gemini") then
        (if negb (truthy (opt_str GEMINI_API_KEY)) then
           Logger_error rt logger 83
             "EMBEDDING_PROVIDER is 'gemini' but GEMINI_API_KEY is missing.";;;
           Script_raise
             (ValueError
                "Gemini API key is required when EMBEDDING_PROVIDER is 'gemini'.")
         else Script_ret tt);;;
        Script_ret EMBEDDING_PROVIDER
      else if bool_decide (EMBEDDING_PROVIDER = Some "huggingface") then
        (if negb (truthy (opt_str HF_MODEL)) then
           Logger_error rt logger 87
             "EMBEDDING_PROVIDER is 'huggingface' but HF_MODEL is missing.";;;
           Script_raise
             (ValueError
                "HuggingFace model is required when EMBEDDING_PROVIDER is 'huggingface'.")
         else Script_ret tt);;;
        Script_ret EMBEDDING_PROVIDER
      else
        Logger_info rt logger 91
          "No EMBEDDING_PROVIDER selected or it is set to None. Disabling embedding features.";;;
        Script_ret None);
   Logger_info rt logger 93 ("Read-only mode: " +:+ str_of_bool MCP_READ_ONLY);;;
   Logger_info rt logger 94
     ("Logging to console and to file: " +:+ log_file_path c +:+ " (Level: "
      +:+ log_level c +:+ ", MaxSize: " +:+ pretty (log_max_bytes c)
      +:+ "B, Backups: " +:+ pretty (log_backup_count c) +:+ ")");;;
   Script_ret
     {| JWT_AUDIENCE := JWT_AUDIENCE; JWT_ISSUER := JWT_ISSUER;
        LOG_LEVEL := log_level c; LOG_FILE_PATH := log_file_path c;
        LOG_MAX_BYTES := log_max_bytes c;
        LOG_BACKUP_COUNT := log_backup_count c;
        THIRD_PARTY_LOG_LEVEL := THIRD_PARTY_LOG_LEVEL;
        ALLOWED_ORIGINS := ALLOWED_ORIGINS; ALLOWED_HOSTS := ALLOWED_HOSTS;
        logger := logger; DB_HOST := DB_HOST; DB_PORT := DB_PORT;
        DB_USER := DB_USER; DB_PASSWORD := DB_PASSWORD; DB_NAME := DB_NAME;
        DB_CHARSET := DB_CHARSET; MCP_READ_ONLY := MCP_READ_ONLY;
        MCP_MAX_POOL_SIZE := MCP_MAX_POOL_SIZE;
        EMBEDDING_PROVIDER := EMBEDDING_PROVIDER;
        OPENAI_API_KEY := OPENAI_API_KEY; GEMINI_API_KEY := GEMINI_API_KEY;
        HF_MODEL := HF_MODEL |})%script.

(** ** Vocabulary of the statements *)

(** *** Worlds *)

(** The world [w] in which logger [n] has state [l], the next handler
    identity is [k] and the file system is [f]. *)
Definition stage (n : string) (l : Logger) (k : nat) (f : FileSystem)
    (w : World) : World :=
  {| root := root w; loggerDict := <[n := l]> (loggerDict w);
     manager_disable := manager_disable w; next_id := k; fs := f |}.

(** The world in which logger [n] has state [l]. *)
Definition put_logger (n : string) (l : Logger) (w : World) : World :=
  stage n l (next_id w) (fs w) w.

(** *** [setup_logger] *)

(** The formatter [setup_logger] builds. *)
Definition the_formatter : Formatter :=
  CustomJsonFormatter
    "%(timestamp)s %(level)s %(name)s %(module)s %(funcName)s:%(lineno)d %(message)s"
    "%Y-%m-%d %H:%M:%S".

Definition sink (k : nat) (kind : HandlerKind) : Handler :=
  {| hid := k; hkind := kind; hlevel := NOTSET;
     hformatter := Some the_formatter |}.

(** The kinds of sink a configuration selects, in the order of attachment. *)
Definition selected_sinks (c : LoggerConfig) : list HandlerKind :=
  (if enable_console c then [StreamHandler] else []) ++
  (if enable_file c then
     [RotatingFileHandler (Path_of (log_file_path c)) (log_max_bytes c)
        (log_backup_count c)]
   else []).

(** Handlers of the given kinds with consecutive identities from [k]. *)
Fixpoint sinks_from (k : nat) (kinds : list HandlerKind) : list Handler :=
  match kinds with
  | [] => []
  | kind :: kinds' => sink k kind :: sinks_from (S k) kinds'
  end.

(** The value [setup_logger] passes to [setLevel]. *)
Definition requested_level (s : string) : pyval :=
  logging_getattr (upper s) (PInt INFO).

(** The five severity names of the documentation of [setup_logger]. *)
Definition documented_levels : list (string * Z) :=
  [ ("DEBUG", DEBUG); ("INFO", INFO); ("WARNING", WARNING); ("ERROR", ERROR);
    ("CRITICAL", CRITICAL) ].

(** The other integer attributes of [logging]: two aliases and NOTSET. *)
Definition other_levels : list (string * Z) :=
  [ ("WARN", WARN); ("FATAL", FATAL); ("NOTSET", NOTSET) ].

(** What the file branch of [setup_logger] does to the file system. *)
Definition prepare_file (c : LoggerConfig) (f : FileSystem)
    : exn + FileSystem :=
  if enable_file c then
    let log_file := Path_of (log_file_path c) in
    match mkdir_parents (Path_parent log_file).1 (rev (Path_parent log_file).2) f with
    | inl e => inl e
    | inr f' => open_append log_file f'
    end
  else inr f.

(** The state [setup_logger] gives the project's logger. *)
Definition configured (z : Z) (old : Logger) (hs : list Handler) : Logger :=
  {| level := z; propagate := false; handlers := hs;
     disabled := disabled old |}.

(** The outcome of [setup_logger] in closed form: the exception of
    [setLevel], of [mkdir] or of the file open, or the logger configured
    with new sinks. *)
Definition setup_logger_outcome (c : LoggerConfig) (w : World)
    : outcome LoggerRef * World :=
  let old := logger_at w (Named LOGGER_NAME) in
  match _checkLevel (requested_level (log_level c)) with
  | inl e => (Raises e, put_logger LOGGER_NAME old w)
  | inr z =>
      let console :=
        sinks_from (next_id w)
          (if enable_console c then [StreamHandler] else []) in
      let k := (next_id w + length console)%nat in
      if enable_file c then
        let log_file := Path_of (log_file_path c) in
        match
          mkdir_parents (Path_parent log_file).1 (rev (Path_parent log_file).2)
            (fs w)
        with
        | inl e =>
            (Raises e, stage LOGGER_NAME (configured z old console) k (fs w) w)
        | inr f1 =>
            match open_append log_file f1 with
            | inl e =>
                (Raises e, stage LOGGER_NAME (configured z old console) k f1 w)
            | inr f2 =>
                (Returns (Named LOGGER_NAME),
                 stage LOGGER_NAME
                   (configured z old
                      (console ++
                       [sink k (RotatingFileHandler log_file (log_max_bytes c)
                                  (log_backup_count c))]))
                   (S k) f2 w)
            end
        end
      else
        (Returns (Named LOGGER_NAME),
         stage LOGGER_NAME (configured z old console) k (fs w) w)
  end.

Definition returns {A : Type} (r : outcome A * World) : bool :=
  match r.1 with
  | Returns _ => true
  | Raises _ => false
  end.


(** Every directory of the file system has its parent directory. *)
Definition closed_fs (f : FileSystem) : Prop :=
  ∀ (a : bool) (x : string) (rp : list string),
    is_dir f (a, rev (x :: rp)) = true → is_dir f (a, rev rp) = true.

Definition with_log_level (s : string) (c : LoggerConfig) : LoggerConfig :=
  {| log_level := s; log_file_path := log_file_path c;
     log_max_bytes := log_max_bytes c; log_backup_count := log_backup_count c;
     enable_console := enable_console c; enable_file := enable_file c |}.

Definition with_sizes (max_bytes backup_count : Z) (c : LoggerConfig)
    : LoggerConfig :=
  {| log_level := log_level c; log_file_path := log_file_path c;
     log_max_bytes := max_bytes; log_backup_count := backup_count;
     enable_console := enable_console c; enable_file := enable_file c |}.

Definition with_sinks (console file : bool) (c : LoggerConfig) : LoggerConfig :=
  {| log_level := log_level c; log_file_path := log_file_path c;
     log_max_bytes := log_max_bytes c; log_backup_count := log_backup_count c;
     enable_console := console; enable_file := file |}.

(** *** [setup_third_party_logging] *)

(** What [setup_third_party_logging] does to one logger. *)
Definition suppressed (z : Z) (l : Logger) : Logger :=
  with_propagate true (with_level z l).

(** One step of the loop of [setup_third_party_logging] with level [z]. *)
Definition suppress_step (z : Z) (w : World) (n : string) : World :=
  put_logger n (suppressed z (logger_at w (Named n))) w.

(** The value [setup_third_party_logging] passes to [setLevel]. *)
Definition third_party_level (s : string) : pyval :=
  logging_getattr (upper s) (PInt WARNING).

(** *** Child loggers *)

(** A name under the project's logger: [mariadb_mcp.<suffix>]. *)
Definition child_name (suffix : string) : string :=
  LOGGER_NAME +:+ "." +:+ suffix.

(** A suffix that is not empty and does not start with a dot. *)
Definition regular (s : string) : bool :=
  match s with
  | EmptyString => false
  | String c _ => negb (is_dot c)
  end.

(** The name of the project's logger, read from its end. *)
Definition rev_root : list ascii := rev (chars LOGGER_NAME).

(** The project's logger exists and does not propagate. *)
Definition isolated (w : World) : Prop :=
  ∃ l, loggerDict w !! LOGGER_NAME = Some l ∧ propagate l = false.

(** Every logger under the project's logger is as [Logger(name)] made it:
    no level, no handler, propagating. *)
Definition tidy (w : World) : Prop :=
  ∀ s l, loggerDict w !! child_name s = Some l → l = new_Logger.

(** *** Formatted records *)

(** The timestamp the caller supplied: the [timestamp] key of a dictionary
    message, else the [timestamp] entry of [extra], else [None]. *)
Definition caller_timestamp (r : LogRecord) : pyval :=
  match record_message_dict r !! "timestamp" with
  | Some v => v
  | None => dict_get (extra r) "timestamp"
  end.

(** The identifier the formatter writes for a runtime value: none for
    [None] and for a falsy (zero) value. *)
Definition runtime_id (o : option Z) : option pyval :=
  match o with
  | Some i => if truthy (PInt i) then Some (PInt i) else None
  | None => None
  end.

(** A raw event formatted by the formatter of [setup_logger]. *)
Definition format_event (rt : Runtime) (n : string) (lvl : Z) (site : CallSite)
    (m : message) (ex : gmap string pyval) : exn + gmap string pyval :=
  match makeRecord rt n lvl site m ex with
  | inl e => inl e
  | inr r => inr (format_record rt the_formatter r)
  end.

(** *** The module [config.py] *)

(** Code that leaves the logging world as it is, whatever its outcome, and
    whose records are all emitted through [lg] from [config.py], at INFO or
    ERROR, enabled there, to the handlers [lg] reaches. *)
Definition logs_through {A : Type} (lg : LoggerRef) (m : Script A) : Prop :=
  ∀ w, (m w).1.2 = w ∧
    ∀ em, em ∈ (m w).2 →
      name (emitted em) = logger_name lg ∧
      module (emitted em) = "config" ∧
      levelno (emitted em) ∈ [INFO; ERROR] ∧
      isEnabledFor w lg (levelno (emitted em)) = true ∧
      delivery em = callHandlers w lg (levelno (emitted em)).


(** ** Concrete worlds and inputs for the examples *)

(** An empty file system in which everything is permitted, and one in which
    nothing may be created. *)
Definition open_fs : FileSystem :=
  {| dirs := ∅; files := ∅; permits := λ _, true |}.

Definition readonly_fs : FileSystem :=
  {| dirs := ∅; files := ∅; permits := λ _, false |}.

(** The [logging] module as it is when the interpreter starts: the root
    logger at WARNING without handlers, no other logger. *)
Definition fresh_world : World :=
  {| root := with_level WARNING new_Logger; loggerDict := ∅;
     manager_disable := 0; next_id := 0%nat; fs := open_fs |}.

(** A fresh world whose file system refuses every creation. *)
Definition readonly_world : World := set_fs readonly_fs fresh_world.

(** A handler the application installed on the library's root logger
    ([logging.basicConfig()]), and the fresh world with it. *)
Definition ambient_handler : Handler :=
  {| hid := 0; hkind := StreamHandler; hlevel := NOTSET; hformatter := None |}.

Definition ambient_world : World :=
  {| root := with_handlers [ambient_handler] (with_level WARNING new_Logger);
     loggerDict := ∅; manager_disable := 0; next_id := 1%nat; fs := open_fs |}.

(** A world in which the [uvicorn] logger was configured by its library:
    own handler, no propagation. *)
Definition uvicorn_world : World :=
  {| root := with_level WARNING new_Logger;
     loggerDict :=
       {[ "uvicorn" := {| level := INFO; propagate := false;
                          handlers := [ambient_handler]; disabled := false |} ]};
     manager_disable := 0; next_id := 1%nat; fs := open_fs |}.

(** A runtime that supplies both identifiers. *)
Definition sample_runtime : Runtime :=
  {| time_now := 1700000000; getpid := Some 4242; get_ident := Some 7;
     strftime := λ _ _, "2023-11-14 22:13:20" |}.

(** A runtime whose identifiers are zero, and one with
    [logging.logProcesses] and [logging.logThreads] switched off. *)
Definition zero_id_runtime : Runtime :=
  {| time_now := 1700000000; getpid := Some 0; get_ident := Some 0;
     strftime := λ _ _, "2023-11-14 22:13:20" |}.

Definition no_id_runtime : Runtime :=
  {| time_now := 1700000000; getpid := None; get_ident := None;
     strftime := λ _ _, "2023-11-14 22:13:20" |}.

Definition sample_site : CallSite :=
  {| site_module := "server"; site_funcName := "main"; site_lineno := 42 |}.

(** A record emitted through the child logger [mariadb_mcp.db] with one
    extra field. *)
Definition sample_record : LogRecord :=
  {| name := "mariadb_mcp.db"; levelno := INFO; levelname := "INFO";
     module := "server"; funcName := "main"; lineno := 42;
     msg := MsgStr "started"; created := 1700000000; process := Some 4242;
     thread := Some 7; extra := {[ "request_id" := PStr "r-17" ]} |}.

(** An environment with credentials, a provider and its key; an [int] that
    parses nothing (the environment sets no integer); and the module-level
    names [config.py] ends with in this environment. *)
Definition sample_env : gmap string string :=
  {[ "DB_USER" := "mcp"; "DB_PASSWORD" := "secret";
     "EMBEDDING_PROVIDER" := "OpenAI"; "OPENAI_API_KEY" := "sk-test";
     "ALLOWED_ORIGINS" := "http://a.example,http://b.example";
     "MCP_READ_ONLY" := "False" ]}.

Definition no_int (s : string) : option Z := None.

Definition sample_settings : Settings :=
  {| JWT_AUDIENCE := "mariadb_ops_server"; JWT_ISSUER := "http://localhost";
     LOG_LEVEL := "INFO"; LOG_FILE_PATH := "logs/mcp_server.log";
     LOG_MAX_BYTES := 10485760; LOG_BACKUP_COUNT := 5;
     THIRD_PARTY_LOG_LEVEL := "WARNING";
     ALLOWED_ORIGINS := [ "http://a.example"; "http://b.example" ];
     ALLOWED_HOSTS := [ "localhost"; "127.0.0.1" ];
     logger := Named LOGGER_NAME; DB_HOST := "localhost"; DB_PORT := 3306;
     DB_USER := Some "mcp"; DB_PASSWORD := Some "secret"; DB_NAME := None;
     DB_CHARSET := None; MCP_READ_ONLY := false; MCP_MAX_POOL_SIZE := 10;
     EMBEDDING_PROVIDER := Some "openai"; OPENAI_API_KEY := Some "sk-test";
     GEMINI_API_KEY := None; HF_MODEL := None |}.

(** The same environment without the provider's key; and one without
    [DB_USER] that asks for the level ERROR. *)
Definition keyless_env : gmap string string :=
  delete "OPENAI_API_KEY" sample_env.

Definition quiet_env : gmap string string :=
  <["LOG_LEVEL" := "error"]> (delete "DB_USER" sample_env).

(** * Theorems *)

(** ** The monad *)

Lemma bind_run {A B : Type} (m : M A) (f : A → M B) (w : World) :
  (m ≫= f) w =
  match m w with
  | (Returns a, w') => f a w'
  | (Raises e, w') => (Raises e, w')
  end.
Proof. reflexivity. Qed.

Lemma ret_run {A : Type} (a : A) (w : World) : (mret a : M A) w = (Returns a, w).
Proof. reflexivity. Qed.

Lemma world_eta (w : World) :
  w = {| root := root w; loggerDict := loggerDict w;
         manager_disable := manager_disable w; next_id := next_id w;
         fs := fs w |}.
Proof. by destruct w. Qed.

Lemma logger_eta (l : Logger) :
  l = {| level := level l; propagate := propagate l; handlers := handlers l;
         disabled := disabled l |}.
Proof. by destruct l. Qed.

(** ** Library operations on a named logger *)

Lemma put_logger_id (n : string) (l : Logger) (w : World) :
  loggerDict w !! n = Some l → put_logger n l w = w.
Proof.
  intros Hl. unfold put_logger, stage.
  rewrite insert_id by done. symmetry. apply world_eta.
Qed.

Lemma Manager_getLogger_run (n : string) (w : World) :
  Manager_getLogger n w =
  (Returns (Named n), put_logger n (logger_at w (Named n)) w).
Proof.
  unfold Manager_getLogger. simpl.
  destruct (loggerDict w !! n) as [l|] eqn:Hl; simpl.
  - by rewrite put_logger_id.
  - reflexivity.
Qed.

Lemma update_stage n g l k f w :
  update_logger (Named n) g (stage n l k f w) = stage n (g l) k f w.
Proof.
  unfold update_logger, stage, set_loggerDict. simpl.
  by rewrite alter_insert_eq.
Qed.

Lemma logger_at_stage n l k f w : logger_at (stage n l k f w) (Named n) = l.
Proof. unfold logger_at, stage. simpl. by rewrite lookup_insert_eq. Qed.

Lemma new_handler_stage kind n l k f w :
  new_handler kind (stage n l k f w) =
  (Returns {| hid := k; hkind := kind; hlevel := NOTSET; hformatter := None |},
   stage n l (S k) f w).
Proof. reflexivity. Qed.

Lemma lift_fs_stage op n l k f w :
  lift_fs op (stage n l k f w) =
  match op f with
  | inl e => (Raises e, stage n l k f w)
  | inr f' => (Returns tt, stage n l k f' w)
  end.
Proof. unfold lift_fs. simpl. by destruct (op f). Qed.

Lemma addHandler_stage n h l k f w :
  handler_in h (handlers l) = false →
  Logger_addHandler (Named n) h (stage n l k f w) =
  (Returns tt, stage n (with_handlers (handlers l ++ [h]) l) k f w).
Proof.
  intros H. unfold Logger_addHandler, modify. by rewrite update_stage, H.
Qed.

Lemma setLevel_stage n v l k f w :
  Logger_setLevel (Named n) v (stage n l k f w) =
  match _checkLevel v with
  | inl e => (Raises e, stage n l k f w)
  | inr z => (Returns tt, stage n (with_level z l) k f w)
  end.
Proof.
  unfold Logger_setLevel. destruct (_checkLevel v); [done|].
  unfold modify. by rewrite update_stage.
Qed.

Lemma set_propagate_stage n b l k f w :
  Logger_set_propagate (Named n) b (stage n l k f w) =
  (Returns tt, stage n (with_propagate b l) k f w).
Proof. unfold Logger_set_propagate, modify. by rewrite update_stage. Qed.

Lemma handlers_stage n l k f w :
  Logger_handlers (Named n) (stage n l k f w) =
  (Returns (handlers l), stage n l k f w).
Proof. unfold Logger_handlers. by rewrite logger_at_stage. Qed.

Lemma handler_in_head (h : Handler) (hs : list Handler) :
  handler_in h (h :: hs) = true.
Proof. unfold handler_in. simpl. by rewrite Nat.eqb_refl. Qed.

Lemma list_remove_head (h : Handler) (hs : list Handler) :
  list_remove h (h :: hs) = hs.
Proof. simpl. by rewrite Nat.eqb_refl. Qed.

(** The loop [for handler in logger.handlers[:]: logger.removeHandler(handler)]
    leaves the logger without handlers. *)
Lemma remove_all_handlers (n : string) (hs : list Handler) :
  ∀ (l : Logger) (k : nat) (f : FileSystem) (w : World),
    handlers l = hs →
    for_each hs (λ h, Logger_removeHandler (Named n) h) (stage n l k f w)
    = (Returns tt, stage n (with_handlers [] l) k f w).
Proof.
  induction hs as [|h hs IH]; intros l k f w Hl.
  - simpl. rewrite ret_run. do 2 f_equal.
    rewrite (logger_eta l) at 1. unfold with_handlers. by rewrite Hl.
  - simpl for_each. rewrite bind_run.
    unfold Logger_removeHandler at 1, modify.
    rewrite update_stage, Hl, handler_in_head, list_remove_head.
    rewrite IH by done. reflexivity.
Qed.

(** ** [setup_logger] step by step *)

Lemma logging_getLogger_project (w : World) :
  logging_getLogger LOGGER_NAME w =
  (Returns (Named LOGGER_NAME),
   put_logger LOGGER_NAME (logger_at w (Named LOGGER_NAME)) w).
Proof. unfold logging_getLogger. simpl. apply Manager_getLogger_run. Qed.

(** [setup_logger] computes its closed form. *)
Lemma setup_logger_run (c : LoggerConfig) (w : World) :
  setup_logger c w = setup_logger_outcome c w.
Proof.
  unfold setup_logger, setup_logger_outcome.
  rewrite bind_run, logging_getLogger_project. unfold put_logger.
  rewrite bind_run. fold (requested_level (log_level c)).
  rewrite setLevel_stage.
  destruct (_checkLevel (requested_level (log_level c))) as [e|z]; [done|].
  rewrite bind_run, set_propagate_stage.
  rewrite bind_run, handlers_stage.
  rewrite bind_run, remove_all_handlers by done.
  set (old := logger_at w (Named LOGGER_NAME)).
  change (with_handlers [] (with_propagate false (with_level z old)))
    with (configured z old []).
  unfold new_StreamHandler.
  destruct (enable_console c), (enable_file c); simpl sinks_from; simpl length.
  - rewrite bind_run, bind_run, new_handler_stage, addHandler_stage by done.
    rewrite bind_run, bind_run. unfold Path_mkdir. rewrite lift_fs_stage.
    destruct (mkdir_parents _ _ _) as [e|f1]; [by rewrite Nat.add_1_r|].
    rewrite bind_run. unfold new_RotatingFileHandler.
    rewrite bind_run, lift_fs_stage.
    destruct (open_append _ f1) as [e|f2]; [by rewrite Nat.add_1_r|].
    rewrite new_handler_stage, addHandler_stage.
    + by rewrite ?bind_run, ?ret_run, ?Nat.add_1_r.
    + simpl. rewrite orb_false_r. apply Nat.eqb_neq. lia.
  - rewrite bind_run, bind_run, new_handler_stage, addHandler_stage by done.
    by rewrite ?bind_run, ?ret_run, ?Nat.add_1_r.
  - rewrite bind_run, ret_run.
    rewrite bind_run, bind_run. unfold Path_mkdir. rewrite lift_fs_stage.
    destruct (mkdir_parents _ _ _) as [e|f1]; [by rewrite Nat.add_0_r|].
    rewrite bind_run. unfold new_RotatingFileHandler.
    rewrite bind_run, lift_fs_stage.
    destruct (open_append _ f1) as [e|f2]; [by rewrite Nat.add_0_r|].
    rewrite new_handler_stage, addHandler_stage by done.
    by rewrite ?bind_run, ?ret_run, ?Nat.add_0_r.
  - by rewrite ?bind_run, ?ret_run, ?Nat.add_0_r.
Qed.

(** [setup_logger] returns exactly when the level is accepted and the file
    is prepared, and then the project's logger carries new sinks only. *)
Lemma setup_logger_returns (c : LoggerConfig) (w w' : World) (lg : LoggerRef) :
  setup_logger c w = (Returns lg, w') ↔
  ∃ z f',
    _checkLevel (requested_level (log_level c)) = inr z ∧
    prepare_file c (fs w) = inr f' ∧
    lg = Named LOGGER_NAME ∧
    w' = stage LOGGER_NAME
           (configured z (logger_at w (Named LOGGER_NAME))
              (sinks_from (next_id w) (selected_sinks c)))
           (next_id w + length (selected_sinks c)) f' w.
Proof.
  rewrite setup_logger_run. unfold setup_logger_outcome, prepare_file, selected_sinks.
  destruct (_checkLevel _) as [e|z].
  { split; [done|]. by intros (? & ? & ? & _). }
  destruct (enable_console c), (enable_file c); simpl.
  all: repeat match goal with
       | |- context [mkdir_parents ?a ?b ?f] => destruct (mkdir_parents a b f) as [?|?]
       | |- context [open_append ?a ?f] => destruct (open_append a f) as [?|?]
       end.
  all: rewrite ?(Nat.add_comm (next_id w) _); simpl Nat.add.
  all: split.
  all: try (intros [= <- <-]; eexists _, _; split_and!; try reflexivity;
            reflexivity).
  all: try (intros (z' & f' & Hz & Hf & -> & ->); simplify_eq;
            reflexivity).
  all: try (intros [=]).
  all: try (intros (z' & f' & Hz & Hf & -> & ->); discriminate).
Qed.

Lemma sinks_from_hid (kinds : list HandlerKind) :
  ∀ (k : nat) (h : Handler), h ∈ sinks_from k kinds → (k ≤ hid h < k + length kinds)%nat.
Proof.
  induction kinds as [|kind kinds IH]; intros k h Hh; simpl in *.
  - by apply elem_of_nil in Hh.
  - apply elem_of_cons in Hh as [->|Hh]; [simpl; lia|].
    apply IH in Hh. lia.
Qed.

Lemma sinks_from_kinds (kinds : list HandlerKind) :
  ∀ k, hkind <$> sinks_from k kinds = kinds.
Proof. induction kinds as [|kind kinds IH]; intros k; simpl; [done|]. by rewrite IH. Qed.

Lemma handler_in_false (h : Handler) (hs : list Handler) :
  (∀ h', h' ∈ hs → hid h' ≠ hid h) → handler_in h hs = false.
Proof.
  intros H. unfold handler_in. apply not_true_is_false. intros Hex.
  apply existsb_exists in Hex as (h' & Hin & Heq).
  apply Nat.eqb_eq in Heq. apply (H h'); [by apply list_elem_of_In|done].
Qed.

Lemma visited_no_propagate (w : World) (c : LoggerRef) :
  propagate (logger_at w c) = false → visited w c = [c].
Proof.
  intros H. unfold visited.
  destruct c; simpl walk_fuel; cbn [hierarchy_walk]; by rewrite H.
Qed.

Lemma filter_all_true {A : Type} (p : A → bool) (l : list A) :
  (∀ x, x ∈ l → p x = true) → List.filter p l = l.
Proof.
  induction l as [|x l IH]; intros H; simpl; [done|].
  rewrite (H x) by constructor. f_equal. apply IH. intros y Hy. apply H. by constructor.
Qed.

Lemma sinks_from_hlevel (kinds : list HandlerKind) :
  ∀ k h, h ∈ sinks_from k kinds → hlevel h = NOTSET.
Proof.
  induction kinds as [|kind kinds IH]; intros k h Hh; simpl in *.
  - by apply elem_of_nil in Hh.
  - apply elem_of_cons in Hh as [->|Hh]; [done|]. by eapply IH.
Qed.

Lemma callHandlers_own_sinks (w : World) (c : LoggerRef) (lvl : Z) :
  propagate (logger_at w c) = false →
  (∀ h, h ∈ handlers (logger_at w c) → hlevel h = NOTSET) →
  0 ≤ lvl →
  delivered (callHandlers w c lvl) = handlers (logger_at w c).
Proof.
  intros Hp Hl Hlvl. unfold callHandlers, found.
  rewrite visited_no_propagate by done. simpl. rewrite app_nil_r.
  destruct (handlers (logger_at w c)) as [|h hs] eqn:Hhs; [done|]. cbn [delivered].
  apply filter_all_true. intros x Hx. rewrite (Hl x Hx). unfold NOTSET. by apply Z.leb_le.
Qed.

(** ** Re-initialisation *)

(** C1. Calling [setup_logger] with [c1] and then with [c2] (both calls
    returning) leaves the project's logger with exactly the sinks selected by
    the flags of [c2], in the level of [c2] and without propagation; no
    handler present after the first call is attached after the second; and a
    record of non-negative severity handed to the handlers is delivered once
    to each selected sink. *)
Theorem setup_logger_reinitialize (c1 c2 : LoggerConfig) (w w1 w2 : World)
    (lg1 lg2 : LoggerRef) :
  setup_logger c1 w = (Returns lg1, w1) →
  setup_logger c2 w1 = (Returns lg2, w2) →
  lg2 = lg1 ∧
  hkind <$> handlers (logger_at w2 lg2) = selected_sinks c2 ∧
  _checkLevel (requested_level (log_level c2)) = inr (level (logger_at w2 lg2)) ∧
  propagate (logger_at w2 lg2) = false ∧
  (∀ h, h ∈ handlers (logger_at w1 lg1) →
        handler_in h (handlers (logger_at w2 lg2)) = false) ∧
  (∀ lvl, 0 ≤ lvl →
     hkind <$> delivered (callHandlers w2 lg2 lvl) = selected_sinks c2 ∧
     length (delivered (callHandlers w2 lg2 lvl)) =
       (Nat.b2n (enable_console c2) + Nat.b2n (enable_file c2))%nat).
Proof.
  intros H1 H2.
  apply setup_logger_returns in H1 as (z1 & f1 & Hz1 & Hf1 & -> & ->).
  apply setup_logger_returns in H2 as (z2 & f2 & Hz2 & Hf2 & -> & ->).
  rewrite !logger_at_stage. simpl.
  split; [done|]. split; [apply sinks_from_kinds|]. split; [done|]. split; [done|].
  split.
  - intros h Hh. apply handler_in_false. intros h' Hh'.
    apply sinks_from_hid in Hh, Hh'. lia.
  - intros lvl Hlvl.
    rewrite callHandlers_own_sinks; rewrite ?logger_at_stage; simpl; try done.
    + split; [apply sinks_from_kinds|].
      rewrite <- (length_fmap hkind), sinks_from_kinds.
      unfold selected_sinks. by destruct (enable_console c2), (enable_file c2).
    + intros h Hh. by eapply sinks_from_hlevel.
Qed.

Lemma setup_logger_reinitialize_witness :
  hkind <$> handlers (logger_at
      (setup_logger (with_sinks true false default_config)
         (setup_logger default_config fresh_world).2).2 (Named LOGGER_NAME))
  = [StreamHandler].
Proof.
  refine (proj1 (proj2 (setup_logger_reinitialize default_config
            (with_sinks true false default_config) fresh_world
            (setup_logger default_config fresh_world).2
            (setup_logger (with_sinks true false default_config)
               (setup_logger default_config fresh_world).2).2
            (Named LOGGER_NAME) (Named LOGGER_NAME) _ _))).
  - vm_compute. reflexivity.
  - vm_compute. reflexivity.
Defined.

(** ** The severity threshold *)

Lemma setup_logger_level_set (c : LoggerConfig) (w : World) (z : Z) :
  _checkLevel (requested_level (log_level c)) = inr z →
  level (logger_at (setup_logger c w).2 (Named LOGGER_NAME)) = z.
Proof.
  intros Hz. rewrite setup_logger_run. unfold setup_logger_outcome. rewrite Hz.
  destruct (enable_file c); [|by cbn [snd]; rewrite logger_at_stage].
  destruct (mkdir_parents _ _ _); [by cbn [snd]; rewrite logger_at_stage|].
  destruct (open_append _ _); by cbn [snd]; rewrite logger_at_stage.
Qed.


Lemma requested_level_documented (s : string) (z : Z) :
  assoc (upper s) documented_levels = Some z →
  _checkLevel (requested_level s) = inr z.
Proof.
  unfold requested_level, logging_getattr, documented_levels, assoc at 1.
  intros H.
  repeat match type of H with
  | (if String.eqb ?a ?b then _ else _) = _ =>
      destruct (String.eqb_spec a b) as [->|_];
      [by injection H as <-|]
  end.
  discriminate.
Qed.

Lemma requested_level_other (s : string) (z : Z) :
  assoc (upper s) other_levels = Some z →
  _checkLevel (requested_level s) = inr z.
Proof.
  unfold requested_level, logging_getattr, other_levels, assoc at 1.
  intros H.
  repeat match type of H with
  | (if String.eqb ?a ?b then _ else _) = _ =>
      destruct (String.eqb_spec a b) as [->|_];
      [by injection H as <-|]
  end.
  discriminate.
Qed.

Lemma requested_level_default (s : string) :
  assoc (upper s) logging_attributes = None →
  _checkLevel (requested_level s) = inr INFO.
Proof. unfold requested_level, logging_getattr. by intros ->. Qed.

(** C3 (amended). The level of the project's logger is set from the
    upper-cased string: to the documented level when it is one of DEBUG, INFO,
    WARNING, ERROR, CRITICAL in any letter case; to WARNING, CRITICAL and
    NOTSET when it is WARN, FATAL and NOTSET; and to INFO when the upper-cased
    string names no attribute of the [logging] module. *)
Theorem setup_logger_level (c : LoggerConfig) (w : World) :
  let after := logger_at (setup_logger c w).2 (Named LOGGER_NAME) in
  (∀ z, assoc (upper (log_level c)) documented_levels = Some z → level after = z) ∧
  (∀ z, assoc (upper (log_level c)) other_levels = Some z → level after = z) ∧
  (assoc (upper (log_level c)) logging_attributes = None → level after = INFO).
Proof.
  split_and!.
  - intros z Hz. by apply setup_logger_level_set, requested_level_documented.
  - intros z Hz. by apply setup_logger_level_set, requested_level_other.
  - intros H. by apply setup_logger_level_set, requested_level_default.
Qed.

Lemma setup_logger_level_witness :
  level (logger_at
           (setup_logger (with_log_level "debug" default_config) fresh_world).2
           (Named LOGGER_NAME)) = DEBUG.
Proof.
  apply (proj1 (setup_logger_level (with_log_level "debug" default_config)
                  fresh_world) DEBUG).
  reflexivity.
Defined.

(** C3 (as stated) fails: [basic_format] is none of the five names, yet
    the call raises [ValueError] and the level is not INFO; [notset] is none
    of the five names and sets the level NOTSET. *)
Lemma level_default_counterexample :
  assoc (upper "basic_format") documented_levels = None ∧
  (setup_logger (with_log_level "basic_format" default_config) fresh_world).1
    = Raises (ValueError ("Unknown level: " +:+ BASIC_FORMAT)) ∧
  level (logger_at
           (setup_logger (with_log_level "basic_format" default_config)
              fresh_world).2
           (Named LOGGER_NAME)) ≠ INFO ∧
  assoc (upper "notset") documented_levels = None ∧
  level (logger_at
           (setup_logger (with_log_level "notset" default_config) fresh_world).2
           (Named LOGGER_NAME)) ≠ INFO.
Proof. vm_compute. repeat split; discriminate. Qed.

(** The other attributes an upper-cased string can name: the aliases WARN
    and FATAL and the level NOTSET are accepted, the attributes
    [BASIC_FORMAT] and [_STYLES] make [setLevel] raise. *)
Lemma requested_level_other_attributes :
  _checkLevel (requested_level "warn") = inr WARNING ∧
  _checkLevel (requested_level "fatal") = inr CRITICAL ∧
  _checkLevel (requested_level "notset") = inr NOTSET ∧
  _checkLevel (requested_level "basic_format")
    = inl (ValueError ("Unknown level: " +:+ BASIC_FORMAT)) ∧
  _checkLevel (requested_level "_styles")
    = inl (TypeError "Level not an integer or a valid string").
Proof. vm_compute. repeat split; reflexivity. Qed.

(** ** The file sink *)

Lemma is_dir_add_dir (p q : Path) (f : FileSystem) :
  is_dir (add_dir p f) q = true ↔ (q = p ∧ q.2 ≠ []) ∨ is_dir f q = true.
Proof.
  unfold is_dir, add_dir. simpl. destruct q as [a [|x l]]; simpl.
  - split; [by right|done].
  - rewrite !bool_decide_eq_true, elem_of_union, elem_of_singleton.
    split; [intros [->|?]; [by left|by right]|intros [[-> _]|?]; [by left|by right]].
Qed.

Lemma is_dir_nil (f : FileSystem) (a : bool) : is_dir f (a, []) = true.
Proof. done. Qed.

Lemma mkdir_parents_spec (a : bool) (rp : list string) :
  ∀ f f', mkdir_parents a rp f = inr f' →
    (∀ q, is_dir f q = true → is_dir f' q = true) ∧
    files f' = files f ∧ permits f' = permits f ∧
    is_dir f' (a, rev rp) = true ∧
    (closed_fs f → closed_fs f').
Proof.
  induction rp as [|x rp IH]; intros f f' H.
  - simpl in H. by injection H as <-.
  - cbn [mkdir_parents] in H.
    destruct (is_dir f (a, rev (x :: rp))) eqn:Hd.
    + by injection H as <-.
    + destruct (is_file f (a, rev (x :: rp))); [done|].
      destruct (mkdir_parents a rp f) as [e|f1] eqn:H1; [done|].
      destruct (permits f1 (a, rev (x :: rp))); [|done].
      injection H as <-. destruct (IH _ _ H1) as (Hmono & Hfiles & Hperm & Hdir & Hcl).
      split_and!; try done.
      * intros q Hq. apply is_dir_add_dir. right. by apply Hmono.
      * apply is_dir_add_dir. left. split; [done|]. simpl.
        intros Hnil. by apply app_eq_nil in Hnil as [_ ?].
      * intros Hc a' y rq Hq. apply is_dir_add_dir.
        apply is_dir_add_dir in Hq as [[Heq _]|Hq].
        -- right. injection Heq as -> Hrev. simpl in Hrev.
           apply app_inj_tail in Hrev as [Hrev _].
           apply (f_equal (@List.rev string)) in Hrev.
           rewrite !rev_involutive in Hrev. by subst rq.
        -- right. by apply (Hcl Hc a' y rq).
Qed.


Lemma open_append_spec (p : Path) (f f' : FileSystem) :
  open_append p f = inr f' →
  f' = add_file p f ∧ is_dir f (Path_parent p) = true.
Proof.
  unfold open_append. destruct (is_dir f p); [done|].
  destruct (is_dir f (Path_parent p)); [|done]. simpl.
  destruct (permits f p); [|done]. simpl. by intros [= <-].
Qed.







(** ** Sizes of the rotating file *)

Lemma returns_setup_logger (c : LoggerConfig) (w : World) :
  returns (setup_logger c w) =
  match _checkLevel (requested_level (log_level c)), prepare_file c (fs w) with
  | inr _, inr _ => true
  | _, _ => false
  end.
Proof.
  unfold returns. rewrite setup_logger_run. unfold setup_logger_outcome, prepare_file.
  destruct (_checkLevel _); [done|]. destruct (enable_file c); [|done].
  destruct (mkdir_parents _ _ _); [done|]. by destruct (open_append _ _).
Qed.

Lemma getenv_int_unset (int_of_str : string → option Z) (env : gmap string string)
    (key : string) (dflt : Z) :
  env !! key = None → getenv_int int_of_str env key dflt = inr dflt.
Proof. unfold getenv_int. by intros ->. Qed.

Lemma getenv_int_set (int_of_str : string → option Z) (env : gmap string string)
    (key s : string) (dflt z : Z) :
  env !! key = Some s → int_of_str s = Some z →
  getenv_int int_of_str env key dflt = inr z.
Proof. unfold getenv_int. by intros -> ->. Qed.

(** C4 (amended). The maximum size and the backup count never decide
    whether [setup_logger] returns, and the rotating-file sink is built with
    exactly the configured values, whatever their sign; a severity string
    that names no attribute of [logging] is replaced by INFO; [config.py]
    uses 10 MiB and 5 only when the environment variable is unset and passes
    every parsed integer on as it is. *)
Theorem sizes_pass_through (c : LoggerConfig) (w : World) :
  (∀ max_bytes backup_count,
     returns (setup_logger (with_sizes max_bytes backup_count c) w)
     = returns (setup_logger c w)) ∧
  (∀ lg w', setup_logger c w = (Returns lg, w') → enable_file c = true →
     RotatingFileHandler (Path_of (log_file_path c)) (log_max_bytes c)
       (log_backup_count c) ∈ hkind <$> handlers (logger_at w' lg)) ∧
  (assoc (upper (log_level c)) logging_attributes = None →
     _checkLevel (requested_level (log_level c)) = inr INFO) ∧
  (∀ int_of_str env,
     env !! "LOG_MAX_BYTES" = None → env !! "LOG_BACKUP_COUNT" = None →
     ∃ c', load_logger_config int_of_str env = inr c' ∧
           log_max_bytes c' = 10 * 1024 * 1024 ∧ log_backup_count c' = 5) ∧
  (∀ int_of_str env s1 s2 z1 z2,
     env !! "LOG_MAX_BYTES" = Some s1 → int_of_str s1 = Some z1 →
     env !! "LOG_BACKUP_COUNT" = Some s2 → int_of_str s2 = Some z2 →
     ∃ c', load_logger_config int_of_str env = inr c' ∧
           log_max_bytes c' = z1 ∧ log_backup_count c' = z2).
Proof.
  split_and!.
  - intros mb bc. by rewrite !returns_setup_logger.
  - intros lg w' H Hf. apply setup_logger_returns in H as (z & f' & Hz & Hp & -> & ->).
    rewrite logger_at_stage. simpl. rewrite sinks_from_kinds.
    unfold selected_sinks. rewrite Hf. apply elem_of_app. right. constructor.
  - apply requested_level_default.
  - intros int_of_str env H1 H2. unfold load_logger_config.
    rewrite !getenv_int_unset by done. eexists. split; [reflexivity|done].
  - intros int_of_str env s1 s2 z1 z2 H1 H1' H2 H2'. unfold load_logger_config.
    rewrite (getenv_int_set _ _ _ s1 _ z1), (getenv_int_set _ _ _ s2 _ z2) by done.
    eexists. split; [reflexivity|done].
Qed.

Lemma sizes_pass_through_witness :
  RotatingFileHandler (Path_of "logs/mcp_server.log") 0 0
  ∈ hkind <$> handlers (logger_at
       (setup_logger (with_sizes 0 0 default_config) fresh_world).2
       (Named LOGGER_NAME)).
Proof.
  apply (proj1 (proj2 (sizes_pass_through (with_sizes 0 0 default_config)
                         fresh_world))
           (Named LOGGER_NAME)
           (setup_logger (with_sizes 0 0 default_config) fresh_world).2).
  - vm_compute. reflexivity.
  - reflexivity.
Defined.

(** C4 (as stated) fails: with a maximum size of 0 and a backup count of
    -1 the call returns and the sink carries 0 and -1, not 10 MiB and 5; and
    [config.py] passes a parsed 0 on. *)
Lemma nonpositive_sizes_counterexample :
  log_max_bytes (with_sizes 0 (-1) default_config) ≤ 0 ∧
  log_backup_count (with_sizes 0 (-1) default_config) ≤ 0 ∧
  returns (setup_logger (with_sizes 0 (-1) default_config) fresh_world) = true ∧
  hkind <$> handlers (logger_at
      (setup_logger (with_sizes 0 (-1) default_config) fresh_world).2
      (Named LOGGER_NAME))
  = [ StreamHandler;
      RotatingFileHandler (false, ["logs"; "mcp_server.log"]) 0 (-1) ] ∧
  load_logger_config (λ _, Some 0)
    {[ "LOG_MAX_BYTES" := "0"; "LOG_BACKUP_COUNT" := "0" ]}
  = inr (with_sizes 0 0 default_config).
Proof. vm_compute. split_and!; try reflexivity; discriminate. Qed.

(** ** [get_logger] *)

Lemma get_logger_run (n : option string) (w : World) :
  let target :=
    match n with
    | Some s => if String.eqb s "" then LOGGER_NAME else child_name s
    | None => LOGGER_NAME
    end in
  get_logger n w =
  (Returns (Named target), put_logger target (logger_at w (Named target)) w).
Proof.
  destruct n as [s|]; simpl; [|apply logging_getLogger_project].
  destruct (String.eqb s ""); simpl; [apply logging_getLogger_project|].
  unfold logging_getLogger. simpl. apply Manager_getLogger_run.
Qed.

Lemma logger_at_put (n : string) (l : Logger) (w : World) :
  logger_at (put_logger n l w) (Named n) = l.
Proof. apply logger_at_stage. Qed.

(** C10. A second [get_logger] call with the same argument returns the
    same handle and leaves the world as the first call left it. *)
Theorem get_logger_idempotent (n : option string) (w : World) :
  get_logger n (get_logger n w).2 = get_logger n w.
Proof.
  rewrite !get_logger_run. cbn [snd]. f_equal.
  rewrite logger_at_put. apply put_logger_id.
  unfold put_logger, stage. simpl. apply lookup_insert_eq.
Qed.

(** ** [setup_third_party_logging] *)

Lemma suppress_body_run (v : pyval) (n : string) (w : World) :
  String.eqb n "" || String.eqb n "root" = false →
  (logging_getLogger n ≫= λ third_party_logger,
     Logger_setLevel third_party_logger v;;
     Logger_set_propagate third_party_logger true) w
  = match _checkLevel v with
    | inl e => (Raises e, put_logger n (logger_at w (Named n)) w)
    | inr z => (Returns tt, suppress_step z w n)
    end.
Proof.
  intros Hn. rewrite bind_run. unfold logging_getLogger. rewrite Hn.
  rewrite Manager_getLogger_run. unfold put_logger.
  rewrite bind_run, setLevel_stage. destruct (_checkLevel v) as [e|z]; [done|].
  by rewrite set_propagate_stage.
Qed.

Lemma suppress_loop_run (v : pyval) (z : Z) (names : list string) :
  _checkLevel v = inr z →
  Forall (λ n, String.eqb n "" || String.eqb n "root" = false) names →
  ∀ w,
    for_each names (λ logger_name,
      logging_getLogger logger_name ≫= λ third_party_logger,
        Logger_setLevel third_party_logger v;;
        Logger_set_propagate third_party_logger true) w
    = (Returns tt, foldl (suppress_step z) w names).
Proof.
  intros Hz Hnames. induction Hnames as [|n names Hn _ IH]; intros w; [done|].
  cbn [for_each foldl]. rewrite bind_run, suppress_body_run, Hz by done. apply IH.
Qed.

Lemma suppress_loop_raise (v : pyval) (e : exn) (n : string) (names : list string) (w : World) :
  _checkLevel v = inl e →
  String.eqb n "" || String.eqb n "root" = false →
  for_each (n :: names) (λ logger_name,
      logging_getLogger logger_name ≫= λ third_party_logger,
        Logger_setLevel third_party_logger v;;
        Logger_set_propagate third_party_logger true) w
  = (Raises e, put_logger n (logger_at w (Named n)) w).
Proof.
  intros He Hn. cbn [for_each]. by rewrite bind_run, suppress_body_run, He.
Qed.

Lemma suppressed_idemp (z : Z) (l : Logger) : suppressed z (suppressed z l) = suppressed z l.
Proof. done. Qed.

Lemma suppress_fold_frame (z : Z) (names : list string) :
  ∀ w, let w' := foldl (suppress_step z) w names in
    root w' = root w ∧ manager_disable w' = manager_disable w ∧
    next_id w' = next_id w ∧ fs w' = fs w.
Proof.
  induction names as [|n names IH]; intros w; [done|].
  cbn [foldl]. destruct (IH (suppress_step z w n)) as (-> & -> & -> & ->). done.
Qed.

Lemma suppress_fold_lookup (z : Z) (names : list string) :
  ∀ w m,
    loggerDict (foldl (suppress_step z) w names) !! m =
    if bool_decide (m ∈ names) then Some (suppressed z (logger_at w (Named m)))
    else loggerDict w !! m.
Proof.
  induction names as [|n names IH]; intros w m; [done|].
  cbn [foldl]. rewrite IH.
  unfold suppress_step, put_logger, stage, logger_at. simpl.
  destruct (decide (m = n)) as [->|Hne].
  - rewrite lookup_insert_eq. simpl.
    rewrite (bool_decide_eq_true_2 (n ∈ n :: names)) by constructor.
    by destruct (bool_decide (n ∈ names)).
  - rewrite lookup_insert_ne by done.
    destruct (bool_decide (m ∈ names)) eqn:Hm.
    + apply bool_decide_eq_true in Hm.
      rewrite bool_decide_eq_true_2; [done|by constructor].
    + apply bool_decide_eq_false in Hm.
      rewrite bool_decide_eq_false_2; [done|].
      intros Hin. apply elem_of_cons in Hin as [?|?]; done.
Qed.

Lemma third_party_names_ok :
  Forall (λ n, String.eqb n "" || String.eqb n "root" = false) third_party_loggers.
Proof. repeat constructor. Qed.

Lemma child_name_not_project (s : string) : child_name s ≠ LOGGER_NAME.
Proof. unfold child_name, LOGGER_NAME. simpl. by intros [=]. Qed.

Lemma child_name_not_third_party (s : string) : child_name s ∉ third_party_loggers.
Proof.
  unfold child_name, LOGGER_NAME, third_party_loggers. simpl. intros Hin.
  repeat (apply elem_of_cons in Hin as [[=]|Hin]). by apply elem_of_nil in Hin.
Qed.

Lemma project_not_third_party : LOGGER_NAME ∉ third_party_loggers.
Proof.
  unfold LOGGER_NAME, third_party_loggers. intros Hin.
  repeat (apply elem_of_cons in Hin as [[=]|Hin]). by apply elem_of_nil in Hin.
Qed.

Lemma third_party_lookup_outside (lvl : string) (w : World) (n : string) :
  n ∉ third_party_loggers →
  loggerDict (setup_third_party_logging lvl w).2 !! n = loggerDict w !! n.
Proof.
  intros Hn. unfold setup_third_party_logging.
  set (v := logging_getattr (upper lvl) (PInt WARNING)).
  destruct (_checkLevel v) as [e|z] eqn:Hv.
  - pose proof (suppress_loop_raise v e "fastmcp" (tail third_party_loggers) w
                  Hv eq_refl) as Hrun.
    change ("fastmcp" :: tail third_party_loggers) with third_party_loggers in Hrun.
    rewrite Hrun. cbn [snd]. unfold put_logger, stage. cbn [loggerDict].
    rewrite lookup_insert_ne; [done|]. intros <-. apply Hn. constructor.
  - rewrite (suppress_loop_run v z) by (done || apply third_party_names_ok).
    cbn [snd]. rewrite suppress_fold_lookup. by rewrite bool_decide_eq_false_2.
Qed.




(** ** The record formatter *)

Lemma required_fields_the_formatter :
  required_fields the_formatter =
  [ "timestamp"; "level"; "name"; "module"; "funcName"; "lineno"; "message" ].
Proof. reflexivity. Qed.

Ltac split_ids r :=
  destruct (process r) as [?pid|]; [destruct (truthy (PInt pid))|];
  (destruct (thread r) as [?tid|]; [destruct (truthy (PInt tid))|]).

Lemma add_fields_context (rt : Runtime) (self : Formatter)
    (log_record : gmap string pyval) (r : LogRecord)
    (message_dict : gmap string pyval) :
  let out := add_fields rt self log_record r message_dict in
  out !! "level" = Some (PStr (levelname r)) ∧
  out !! "logger" = Some (PStr (name r)) ∧
  out !! "module" = Some (PStr (module r)) ∧
  out !! "function" = Some (PStr (funcName r)) ∧
  out !! "line" = Some (PInt (lineno r)).
Proof.
  unfold add_fields. split_ids r.
  all: split_and!; by simplify_map_eq.
Qed.

Lemma add_fields_timestamp (rt : Runtime) (self : Formatter)
    (log_record : gmap string pyval) (r : LogRecord)
    (message_dict : gmap string pyval) :
  let base := JsonFormatter_add_fields self log_record r message_dict in
  add_fields rt self log_record r message_dict !! "timestamp" =
  Some (if truthy (dict_get base "timestamp") then dict_get base "timestamp"
        else PStr (formatTime rt r (datefmt self))).
Proof.
  unfold add_fields.
  set (base := JsonFormatter_add_fields self log_record r message_dict).
  cbv zeta. split_ids r.
  all: destruct (truthy (dict_get base "timestamp")) eqn:Ht; simpl negb; cbv iota.
  all: simplify_map_eq; try done.
  all: unfold dict_get in *; destruct (base !! "timestamp"); simpl in *; done.
Qed.

Lemma add_fields_ids (rt : Runtime) (self : Formatter)
    (log_record : gmap string pyval) (r : LogRecord)
    (message_dict : gmap string pyval) :
  let base := JsonFormatter_add_fields self log_record r message_dict in
  let out := add_fields rt self log_record r message_dict in
  out !! "process" = runtime_id (process r) ∪ base !! "process" ∧
  out !! "thread" = runtime_id (thread r) ∪ base !! "thread".
Proof.
  unfold add_fields, runtime_id.
  set (base := JsonFormatter_add_fields self log_record r message_dict).
  cbv zeta. split_ids r.
  all: destruct (truthy (dict_get base "timestamp")); simpl negb; cbv iota.
  all: split; simplify_map_eq; try done.
  all: try (by destruct (base !! "process")); try (by destruct (base !! "thread")).
Qed.

Lemma skip_fields_the_formatter :
  skip_fields the_formatter =
  ([ "timestamp"; "level"; "name"; "module"; "funcName"; "lineno"; "message" ]
     ++ RESERVED_ATTRS)%list.
Proof. reflexivity. Qed.

Lemma merge_record_extra_skipped (r : LogRecord) (target : gmap string pyval)
    (reserved : list string) (k : string) :
  k ∈ reserved → merge_record_extra r target reserved !! k = target !! k.
Proof.
  intros Hk. unfold merge_record_extra. apply lookup_union_r.
  apply map_lookup_filter_None_2. right. intros x _ [Hn _]. by apply Hn.
Qed.

Lemma merge_record_extra_merged (r : LogRecord) (target : gmap string pyval)
    (reserved : list string) (k : string) (v : pyval) :
  extra r !! k = Some v → k ∉ reserved → startswith "_" k = false →
  merge_record_extra r target reserved !! k = Some v.
Proof.
  intros Hk Hr Hu. unfold merge_record_extra. apply lookup_union_Some_l.
  by apply map_lookup_filter_Some_2.
Qed.

Lemma base_timestamp (r : LogRecord) (md : gmap string pyval) :
  JsonFormatter_add_fields the_formatter ∅ r md !! "timestamp" =
  Some (match md !! "timestamp" with
        | Some v => v
        | None => dict_get (extra r) "timestamp"
        end).
Proof.
  unfold JsonFormatter_add_fields.
  rewrite merge_record_extra_skipped
    by (rewrite skip_fields_the_formatter; apply elem_of_app; left; constructor).
  rewrite required_fields_the_formatter. cbn [foldl].
  rewrite lookup_union. destruct (md !! "timestamp") as [v|] eqn:Hmd.
  - by destruct (_ !! "timestamp").
  - rewrite (left_id_L None _). by simplify_map_eq.
Qed.

Lemma base_reserved (r : LogRecord) (md : gmap string pyval) (k : string) :
  k ∈ RESERVED_ATTRS →
  k ∉ [ "timestamp"; "level"; "name"; "module"; "funcName"; "lineno"; "message" ] →
  JsonFormatter_add_fields the_formatter ∅ r md !! k = md !! k.
Proof.
  intros Hk Hn. unfold JsonFormatter_add_fields.
  rewrite merge_record_extra_skipped
    by (rewrite skip_fields_the_formatter; apply elem_of_app; by right).
  rewrite required_fields_the_formatter. cbn [foldl].
  apply lookup_union_l.
  rewrite !lookup_insert_ne; [apply lookup_empty|..];
    intros <-; apply Hn; repeat (constructor || apply elem_of_list_further).
Qed.

Lemma add_fields_other (rt : Runtime) (self : Formatter)
    (log_record : gmap string pyval) (r : LogRecord)
    (message_dict : gmap string pyval) (k : string) :
  k ∉ [ "timestamp"; "level"; "logger"; "module"; "function"; "line";
        "process"; "thread" ] →
  add_fields rt self log_record r message_dict !! k =
  JsonFormatter_add_fields self log_record r message_dict !! k.
Proof.
  intros Hk. unfold add_fields.
  set (base := JsonFormatter_add_fields self log_record r message_dict).
  assert (∀ k', k' ∈ [ "timestamp"; "level"; "logger"; "module"; "function";
                       "line"; "process"; "thread" ] → k' ≠ k) as Hne
    by (intros k' Hk' ->; done).
  cbv zeta. split_ids r.
  all: destruct (truthy (dict_get base "timestamp")); simpl negb; cbv iota.
  all: rewrite ?lookup_insert_ne; [reflexivity|..].
  all: apply Hne; repeat (constructor || apply elem_of_list_further).
Qed.

(** C2 (amended). In the record the formatter of [setup_logger] builds,
    [level], [logger], [module], [function] and [line] always carry the
    values of the log record, whatever the caller supplied; [timestamp] is
    always present, and it is the caller's [timestamp] when that is truthy
    and the formatted time of the record otherwise; an extra whose key is not
    a skipped field, does not start with an underscore and is none of
    [logger], [function], [line] is present with the caller's value. *)
Theorem guaranteed_fields (rt : Runtime) (r : LogRecord) :
  let out := format_record rt the_formatter r in
  out !! "level" = Some (PStr (levelname r)) ∧
  out !! "logger" = Some (PStr (name r)) ∧
  out !! "module" = Some (PStr (module r)) ∧
  out !! "function" = Some (PStr (funcName r)) ∧
  out !! "line" = Some (PInt (lineno r)) ∧
  out !! "timestamp" =
    Some (if truthy (caller_timestamp r) then caller_timestamp r
          else PStr (formatTime rt r "%Y-%m-%d %H:%M:%S")) ∧
  (∀ k v, extra r !! k = Some v →
     k ∉ skip_fields the_formatter → startswith "_" k = false →
     k ∉ [ "logger"; "function"; "line" ] →
     out !! k = Some v).
Proof.
  unfold format_record.
  destruct (add_fields_context rt the_formatter ∅ r (record_message_dict r))
    as (H1 & H2 & H3 & H4 & H5).
  split_and!; try done.
  - rewrite add_fields_timestamp. unfold dict_get at 1 2.
    by rewrite base_timestamp.
  - intros k v Hk Hskip Hu Hlate.
    rewrite add_fields_other.
    + unfold JsonFormatter_add_fields. by apply merge_record_extra_merged.
    + intros Hin. rewrite skip_fields_the_formatter in Hskip.
      repeat (apply elem_of_cons in Hin as [->|Hin]);
        try (apply Hskip; vm_compute; repeat (constructor || apply elem_of_list_further); fail);
        try (apply Hlate; repeat (constructor || apply elem_of_list_further); fail).
      by apply elem_of_nil in Hin.
Qed.

Lemma guaranteed_fields_witness :
  format_record sample_runtime the_formatter sample_record !! "request_id"
  = Some (PStr "r-17").
Proof.
  apply (guaranteed_fields sample_runtime sample_record).
  - reflexivity.
  - intros H. vm_compute in H.
    repeat (apply elem_of_cons in H as [[=]|H]). by apply elem_of_nil in H.
  - reflexivity.
  - intros H. repeat (apply elem_of_cons in H as [[=]|H]). by apply elem_of_nil in H.
Defined.

(** C2 (as stated) fails for [timestamp]: an extra of that key is accepted
    by [makeRecord] and its value is emitted in place of the formatted time. *)
Lemma timestamp_override_counterexample :
  match
    format_event sample_runtime LOGGER_NAME INFO sample_site (MsgStr "started")
      {[ "timestamp" := PStr "yesterday" ]}
  with
  | inr out =>
      out !! "timestamp" = Some (PStr "yesterday") ∧
      out !! "timestamp" ≠ Some (PStr (strftime sample_runtime
                                         (datefmt the_formatter)
                                         (time_now sample_runtime)))
  | inl _ => False
  end.
Proof. vm_compute. split; [reflexivity|discriminate]. Qed.

Lemma runtime_id_Some (o : option Z) :
  is_Some (runtime_id o) ↔ ∃ i, o = Some i ∧ i ≠ 0.
Proof.
  unfold runtime_id. destruct o as [i|]; simpl.
  - destruct (Z.eqb_spec i 0) as [->|Hi]; simpl.
    + split; [by intros [? ?]|]. by intros (j & [= <-] & ?).
    + split; [by exists i|by eexists].
  - split; [by intros [? ?]|by intros (? & ? & ?)].
Qed.

(** C5 (amended). The formatter writes the [process] field with the
    runtime's process id exactly when that id is neither [None] nor zero, and
    likewise the [thread] field; otherwise it adds no such field and does not
    raise, and the field is present only if a dictionary message carries the
    key. For a text message the field is present if and only if the id is
    neither [None] nor zero. *)
Theorem process_thread_fields (rt : Runtime) (r : LogRecord) :
  let out := format_record rt the_formatter r in
  out !! "process" = runtime_id (process r) ∪ record_message_dict r !! "process" ∧
  out !! "thread" = runtime_id (thread r) ∪ record_message_dict r !! "thread" ∧
  (∀ s, msg r = MsgStr s →
     (is_Some (out !! "process") ↔ ∃ pid, process r = Some pid ∧ pid ≠ 0) ∧
     (is_Some (out !! "thread") ↔ ∃ tid, thread r = Some tid ∧ tid ≠ 0) ∧
     (∀ pid, process r = Some pid → pid ≠ 0 → out !! "process" = Some (PInt pid)) ∧
     (∀ tid, thread r = Some tid → tid ≠ 0 → out !! "thread" = Some (PInt tid))).
Proof.
  unfold format_record.
  destruct (add_fields_ids rt the_formatter ∅ r (record_message_dict r)) as [Hp Ht].
  rewrite base_reserved in Hp, Ht
    by (vm_compute; repeat (constructor || apply elem_of_list_further) ||
        (intros Hin; repeat (apply elem_of_cons in Hin as [[=]|Hin]);
         by apply elem_of_nil in Hin)).
  split; [done|]. split; [done|].
  intros s Hs. rewrite Hp, Ht. unfold record_message_dict. rewrite Hs.
  rewrite !lookup_empty, !(right_id_L None _).
  split; [apply runtime_id_Some|]. split; [apply runtime_id_Some|].
  split.
  - intros pid -> Hpid. unfold runtime_id. simpl.
    by destruct (Z.eqb_spec pid 0).
  - intros tid -> Htid. unfold runtime_id. simpl.
    by destruct (Z.eqb_spec tid 0).
Qed.

Lemma process_thread_fields_witness :
  format_record sample_runtime the_formatter sample_record !! "process"
  = Some (PInt 4242).
Proof.
  apply (proj2 (proj2 (process_thread_fields sample_runtime sample_record))
           "started" eq_refl).
  - reflexivity.
  - lia.
Defined.

(** C5 (as stated) fails: with identifiers that are zero, hence not [None],
    the fields are omitted; and with no identifier supplied, a dictionary
    message that carries a [process] key puts a [process] field into the
    record. *)
Lemma runtime_id_counterexample :
  getpid zero_id_runtime ≠ None ∧ get_ident zero_id_runtime ≠ None ∧
  match
    format_event zero_id_runtime LOGGER_NAME INFO sample_site (MsgStr "started") ∅
  with
  | inr out => out !! "process" = None ∧ out !! "thread" = None
  | inl _ => False
  end ∧
  getpid no_id_runtime = None ∧
  match
    format_event no_id_runtime LOGGER_NAME INFO sample_site
      (MsgDict {[ "process" := PStr "worker" ]}) ∅
  with
  | inr out => out !! "process" = Some (PStr "worker")
  | inl _ => False
  end.
Proof. vm_compute. split_and!; try reflexivity; discriminate. Qed.

(** ** Strings *)

Lemma chars_app (a b : string) : chars (a +:+ b) = (chars a ++ chars b)%list.
Proof. induction a as [|c a IH]; simpl; [done|]. by rewrite <- IH. Qed.

Lemma of_chars_chars (s : string) : of_chars (chars s) = s.
Proof. apply string_of_list_ascii_of_string. Qed.

Lemma chars_of_chars (l : list ascii) : chars (of_chars l) = l.
Proof. apply list_ascii_of_string_of_list_ascii. Qed.

Lemma length_chars (s : string) : length (chars s) = String.length s.
Proof. induction s as [|c s IH]; simpl; [done|]. by rewrite <- IH. Qed.

(** ** The logger hierarchy *)

Lemma scan_ancestors_shorter (l : list ascii) :
  ∀ sk x, x ∈ scan_ancestors l sk → (length x < length l)%nat.
Proof.
  induction l as [|c l IH]; intros sk x Hx; simpl in Hx.
  - by apply elem_of_nil in Hx.
  - destruct sk.
    + apply IH in Hx. simpl. lia.
    + destruct (is_dot c).
      * destruct l as [|c' l']; [by apply elem_of_nil in Hx|].
        apply elem_of_cons in Hx as [->|Hx]; [simpl; lia|].
        apply IH in Hx. simpl in *. lia.
      * apply IH in Hx. simpl. lia.
Qed.

Lemma ancestor_names_shorter (n a : string) :
  a ∈ ancestor_names n → (String.length a < String.length n)%nat.
Proof.
  unfold ancestor_names. intros Ha.
  apply list_elem_of_fmap in Ha as (x & -> & Hx).
  apply scan_ancestors_shorter in Hx.
  rewrite <- !length_chars, chars_of_chars, length_rev in *. done.
Qed.

Lemma parent_of_cases (w : World) (n : string) :
  parent_of w n = RootLogger ∨
  ∃ a, parent_of w n = Named a ∧ a ∈ ancestor_names n ∧ is_logger w a = true.
Proof.
  unfold parent_of. destruct (List.find _ _) as [a|] eqn:Hf; [right|by left].
  apply find_some in Hf as [Hin Hl]. exists a. split; [done|].
  split; [by apply list_elem_of_In|done].
Qed.

Lemma walk_fuel_parent (w : World) (n : string) :
  (walk_fuel (parent_of w n) ≤ S (String.length n))%nat.
Proof.
  destruct (parent_of_cases w n) as [->|(a & -> & Ha & _)]; simpl; [lia|].
  apply ancestor_names_shorter in Ha. lia.
Qed.

Lemma hierarchy_walk_S (fuel : nat) (w : World) (c : LoggerRef) :
  hierarchy_walk (S fuel) w c =
  c :: (if propagate (logger_at w c) then
          match c with
          | RootLogger => []
          | Named n => hierarchy_walk fuel w (parent_of w n)
          end
        else []).
Proof. reflexivity. Qed.

Lemma effective_level_S (fuel : nat) (w : World) (c : LoggerRef) :
  effective_level (S fuel) w c =
  if negb (level (logger_at w c) =? 0) then level (logger_at w c)
  else
    match c with
    | RootLogger => NOTSET
    | Named n => effective_level fuel w (parent_of w n)
    end.
Proof. reflexivity. Qed.

(** The fuel of [visited] is enough: the loop ends before it is used up, so
    more fuel gives the same loggers. *)
Lemma hierarchy_walk_fuel (w : World) :
  ∀ (k : nat) (c : LoggerRef) (fuel : nat),
    (walk_fuel c ≤ k)%nat → (walk_fuel c ≤ fuel)%nat →
    hierarchy_walk fuel w c = hierarchy_walk (walk_fuel c) w c.
Proof.
  induction k as [|k IH]; intros c fuel Hk Hfuel.
  { destruct c; simpl in Hk; lia. }
  destruct c as [|n].
  - destruct fuel as [|fuel]; [simpl in Hfuel; lia|]. reflexivity.
  - destruct fuel as [|fuel]; [simpl in Hfuel; lia|].
    simpl walk_fuel in *.
    rewrite (hierarchy_walk_S fuel), (hierarchy_walk_S (S (String.length n))).
    f_equal. destruct (propagate _); [|done].
    pose proof (walk_fuel_parent w n).
    rewrite (IH (parent_of w n) fuel) by lia.
    rewrite (IH (parent_of w n) (S (String.length n))) by lia. done.
Qed.

Lemma visited_root (w : World) : visited w RootLogger = [RootLogger].
Proof. unfold visited. simpl. by destruct (propagate (root w)). Qed.

Lemma visited_named (w : World) (n : string) :
  visited w (Named n) =
  Named n :: (if propagate (logger_at w (Named n)) then visited w (parent_of w n)
              else []).
Proof.
  unfold visited at 1. simpl walk_fuel. rewrite hierarchy_walk_S. f_equal.
  destruct (propagate _); [|done].
  pose proof (walk_fuel_parent w n).
  apply (hierarchy_walk_fuel w (S (String.length n))); lia.
Qed.

(** Likewise for the search of the effective level. *)
Lemma effective_level_fuel (w : World) :
  ∀ (k : nat) (c : LoggerRef) (fuel : nat),
    (walk_fuel c ≤ k)%nat → (walk_fuel c ≤ fuel)%nat →
    effective_level fuel w c = effective_level (walk_fuel c) w c.
Proof.
  induction k as [|k IH]; intros c fuel Hk Hfuel.
  { destruct c; simpl in Hk; lia. }
  destruct c as [|n].
  - destruct fuel as [|fuel]; [simpl in Hfuel; lia|]. reflexivity.
  - destruct fuel as [|fuel]; [simpl in Hfuel; lia|].
    simpl walk_fuel in *.
    rewrite (effective_level_S fuel), (effective_level_S (S (String.length n))).
    destruct (negb _); [done|].
    pose proof (walk_fuel_parent w n).
    rewrite (IH (parent_of w n) fuel) by lia.
    rewrite (IH (parent_of w n) (S (String.length n))) by lia. done.
Qed.

Lemma getEffectiveLevel_named (w : World) (n : string) :
  getEffectiveLevel w (Named n) =
  if negb (level (logger_at w (Named n)) =? 0) then level (logger_at w (Named n))
  else getEffectiveLevel w (parent_of w n).
Proof.
  unfold getEffectiveLevel at 1. simpl walk_fuel. rewrite effective_level_S.
  destruct (negb _); [done|].
  pose proof (walk_fuel_parent w n).
  apply (effective_level_fuel w (S (String.length n))); lia.
Qed.

(** The candidates for a name [mariadb_mcp.<c0><...>] with [c0] not a dot:
    names that keep [mariadb_mcp.<c0>] as a prefix, and last the project's
    logger itself. *)
Lemma scan_child (c0 : ascii) (l : list ascii) :
  is_dot c0 = false →
  ∀ sk, ∃ pre,
    scan_ancestors (l ++ c0 :: "."%char :: rev_root) sk = pre ++ [rev_root] ∧
    Forall (λ x, ∃ t, x = (t ++ c0 :: "."%char :: rev_root)%list ∧
                      (length t < length l)%nat) pre.
Proof.
  intros Hc0. induction l as [|c l IH]; intros sk.
  - exists []. split; [|constructor]. simpl app.
    destruct sk; cbn [scan_ancestors]; rewrite ?Hc0; reflexivity.
  - assert (∀ pre,
      Forall (λ x, ∃ t, x = (t ++ c0 :: "."%char :: rev_root)%list ∧
                        (length t < length l)%nat) pre →
      Forall (λ x, ∃ t, x = (t ++ c0 :: "."%char :: rev_root)%list ∧
                        (length t < length (c :: l))%nat) pre) as Hweak.
    { intros pre Hpre. eapply Forall_impl; [exact Hpre|].
      intros x (t & -> & Ht). exists t. split; [done|]. simpl. lia. }
    simpl app. cbn [scan_ancestors]. destruct sk.
    + destruct (IH false) as (pre & -> & Hpre). exists pre. split; [done|auto].
    + destruct (is_dot c).
      * destruct (IH true) as (pre & Hscan & Hpre).
        destruct (l ++ c0 :: "."%char :: rev_root)%list as [|c' rest] eqn:Hrest.
        { by destruct l. }
        rewrite <- Hrest in *. rewrite Hscan.
        exists ((l ++ c0 :: "."%char :: rev_root)%list :: pre). split; [done|].
        constructor; [|auto]. exists l. split; [done|]. simpl. lia.
      * destruct (IH false) as (pre & -> & Hpre). exists pre. split; [done|auto].
Qed.

Lemma child_name_chars (s : string) :
  rev (chars (child_name s)) = (rev (chars s) ++ "."%char :: rev_root)%list.
Proof.
  unfold child_name. rewrite !chars_app, !rev_app_distr. simpl app.
  by rewrite <- app_assoc.
Qed.

Lemma ancestor_names_child (c0 : ascii) (s' : string) :
  is_dot c0 = false →
  ∃ pre,
    ancestor_names (child_name (String c0 s')) = pre ++ [LOGGER_NAME] ∧
    Forall (λ a, ∃ u, a = child_name (String c0 u) ∧
                      (String.length u < String.length s')%nat) pre.
Proof.
  intros Hc0. unfold ancestor_names. rewrite child_name_chars.
  simpl chars. simpl rev. rewrite <- app_assoc. simpl app.
  destruct (scan_child c0 (rev (chars s')) Hc0 false) as (pre & -> & Hpre).
  exists ((λ r, of_chars (rev r)) <$> pre). split.
  - by rewrite fmap_app.
  - apply Forall_fmap. eapply Forall_impl; [exact Hpre|].
    intros x (t & -> & Ht). exists (of_chars (rev t)). split.
    + rewrite <- (of_chars_chars (child_name _)). f_equal.
      unfold child_name. rewrite !chars_app. simpl chars at 2 3.
      rewrite chars_of_chars, rev_app_distr. simpl rev at 1.
      reflexivity.
    + rewrite length_rev, length_chars in Ht.
      by rewrite <- length_chars, chars_of_chars, length_rev.
Qed.


Lemma find_app_last {A : Type} (p : A → bool) (pre : list A) (x : A) :
  List.find p (pre ++ [x]) =
  match List.find p pre with
  | Some a => Some a
  | None => if p x then Some x else None
  end.
Proof.
  induction pre as [|a pre IH]; simpl; [done|]. by destruct (p a).
Qed.

(** The parent of a logger [mariadb_mcp.<s>] whose suffix does not start
    with a dot. *)
Lemma parent_of_child (w : World) (c0 : ascii) (s' : string) :
  is_dot c0 = false →
  (∃ u, parent_of w (child_name (String c0 s')) = Named (child_name (String c0 u)) ∧
        (String.length u < String.length s')%nat) ∨
  (parent_of w (child_name (String c0 s')) = Named LOGGER_NAME ∧
   is_logger w LOGGER_NAME = true) ∨
  (parent_of w (child_name (String c0 s')) = RootLogger ∧
   is_logger w LOGGER_NAME = false).
Proof.
  intros Hc0. unfold parent_of.
  destruct (ancestor_names_child c0 s' Hc0) as (pre & -> & Hpre).
  rewrite find_app_last.
  destruct (List.find (is_logger w) pre) as [a|] eqn:Hf.
  - left. apply find_some in Hf as [Hin _].
    rewrite Forall_forall in Hpre.
    destruct (Hpre a) as (u & -> & Hu); [by apply list_elem_of_In|]. by exists u.
  - right. destruct (is_logger w LOGGER_NAME); [by left|by right].
Qed.

Lemma isolated_logger_at (w : World) :
  isolated w →
  propagate (logger_at w (Named LOGGER_NAME)) = false ∧
  is_logger w LOGGER_NAME = true.
Proof.
  intros (l & Hl & Hp). unfold logger_at, is_logger. rewrite Hl.
  split; [done|]. apply bool_decide_eq_true. by eexists.
Qed.

(** From a child whose suffix does not start with a dot, the loop stops at
    the project's logger at the latest. *)
Lemma child_never_reaches_root (w : World) :
  isolated w →
  ∀ (k : nat) (c0 : ascii) (s' : string),
    (String.length s' < k)%nat → is_dot c0 = false →
    RootLogger ∉ visited w (Named (child_name (String c0 s'))).
Proof.
  intros Hiso. destruct (isolated_logger_at w Hiso) as [Hp Hl].
  induction k as [|k IH]; intros c0 s' Hk Hc0; [lia|].
  rewrite visited_named. intros Hin.
  apply elem_of_cons in Hin as [?|Hin]; [done|].
  destruct (propagate (logger_at w (Named (child_name (String c0 s')))));
    [|by apply elem_of_nil in Hin].
  destruct (parent_of_child w c0 s' Hc0) as [(u & Hu & Hlen)|[[Hpar _]|[_ Hno]]].
  - rewrite Hu in Hin. by apply (IH c0 u); [lia|..].
  - rewrite Hpar, visited_no_propagate in Hin by done.
    apply list_elem_of_singleton in Hin. done.
  - congruence.
Qed.

Lemma tidy_logger_at (w : World) (s : string) :
  tidy w → logger_at w (Named (child_name s)) = new_Logger.
Proof.
  intros Ht. unfold logger_at.
  destruct (loggerDict w !! child_name s) as [l|] eqn:Hl; [|done].
  simpl. by eapply Ht.
Qed.

Lemma parent_of_project (w : World) : parent_of w LOGGER_NAME = RootLogger.
Proof. reflexivity. Qed.

(** Such a child finds the handlers and the effective level of the
    project's logger. *)
Lemma child_delegates (w : World) :
  tidy w →
  ∀ (k : nat) (c0 : ascii) (s' : string),
    (String.length s' < k)%nat → is_dot c0 = false →
    found w (Named (child_name (String c0 s'))) = found w (Named LOGGER_NAME) ∧
    getEffectiveLevel w (Named (child_name (String c0 s')))
      = getEffectiveLevel w (Named LOGGER_NAME).
Proof.
  intros Ht. induction k as [|k IH]; intros c0 s' Hk Hc0; [lia|].
  unfold found at 1. rewrite visited_named, getEffectiveLevel_named.
  rewrite tidy_logger_at by done. cbn [propagate level new_Logger].
  rewrite fmap_cons. cbn [concat]. rewrite tidy_logger_at by done.
  cbn [handlers new_Logger app]. change (negb (NOTSET =? 0)) with false. cbv iota.
  fold (found w (parent_of w (child_name (String c0 s')))).
  destruct (parent_of_child w c0 s' Hc0) as [(u & -> & Hlen)|[[-> _]|[-> Hno]]].
  - apply IH; [lia|done].
  - done.
  - unfold found at 2. rewrite visited_named, getEffectiveLevel_named.
    assert (logger_at w (Named LOGGER_NAME) = new_Logger) as Hnew.
    { unfold logger_at. unfold is_logger in Hno.
      apply bool_decide_eq_false in Hno.
      destruct (loggerDict w !! LOGGER_NAME) eqn:E; [|done].
      exfalso. apply Hno. by eexists. }
    rewrite fmap_cons. cbn [concat]. rewrite !Hnew, parent_of_project.
    done.
Qed.

Lemma setup_logger_world (c : LoggerConfig) (w : World) :
  ∃ l k f,
    (setup_logger c w).2 = stage LOGGER_NAME l k f w ∧
    (propagate l = false ∨ l = logger_at w (Named LOGGER_NAME)).
Proof.
  rewrite setup_logger_run. unfold setup_logger_outcome.
  destruct (_checkLevel _) as [e|z].
  { eexists _, _, _. split; [reflexivity|by right]. }
  destruct (enable_file c).
  - destruct (mkdir_parents _ _ _).
    { eexists _, _, _. split; [reflexivity|by left]. }
    destruct (open_append _ _); eexists _, _, _; (split; [reflexivity|by left]).
  - eexists _, _, _. split; [reflexivity|by left].
Qed.

Lemma isolated_run_operation (o : operation) (w : World) :
  isolated w → isolated (run_operation o w).
Proof.
  intros (l & Hl & Hp). destruct o as [c|n|lvl]; simpl.
  - destruct (setup_logger_world c w) as (l' & k & f & -> & Hl').
    exists l'. split; [apply lookup_insert_eq|].
    destruct Hl' as [?| ->]; [done|]. unfold logger_at. rewrite Hl. exact Hp.
  - rewrite get_logger_run. cbn [snd]. unfold put_logger, stage. cbn [loggerDict].
    exists l. split; [|done].
    destruct n as [[|c s]|]; simpl.
    + rewrite lookup_insert_eq. unfold logger_at. by rewrite Hl.
    + rewrite lookup_insert_ne; [done|].
      apply (child_name_not_project (String c s)).
    + rewrite lookup_insert_eq. unfold logger_at. by rewrite Hl.
  - exists l. split; [|done].
    rewrite third_party_lookup_outside; [done|apply project_not_third_party].
Qed.

Lemma isolated_run_operations (ops : list operation) :
  ∀ w, isolated w → isolated (run_operations ops w).
Proof.
  unfold run_operations. induction ops as [|o ops IH]; intros w Hw; [done|].
  simpl. apply IH. by apply isolated_run_operation.
Qed.

Lemma tidy_run_operation (o : operation) (w : World) :
  tidy w → tidy (run_operation o w).
Proof.
  intros Ht s l. destruct o as [c|n|lvl]; simpl.
  - destruct (setup_logger_world c w) as (l' & k & f & -> & _).
    unfold stage. cbn [loggerDict].
    rewrite lookup_insert_ne by (intros E; by apply (child_name_not_project s)).
    apply Ht.
  - rewrite get_logger_run. cbn [snd]. unfold put_logger, stage. cbn [loggerDict].
    set (target := match n with
                   | Some s0 => if String.eqb s0 "" then LOGGER_NAME else child_name s0
                   | None => LOGGER_NAME
                   end).
    destruct (decide (target = child_name s)) as [E|E].
    + rewrite E, lookup_insert_eq. intros [= <-]. by apply tidy_logger_at.
    + rewrite lookup_insert_ne by done. apply Ht.
  - rewrite third_party_lookup_outside by apply child_name_not_third_party.
    apply Ht.
Qed.

Lemma tidy_run_operations (ops : list operation) :
  ∀ w, tidy w → tidy (run_operations ops w).
Proof.
  unfold run_operations. induction ops as [|o ops IH]; intros w Hw; [done|].
  simpl. apply IH. by apply tidy_run_operation.
Qed.

Lemma regular_inv (s : string) :
  regular s = true → ∃ c0 s', s = String c0 s' ∧ is_dot c0 = false.
Proof.
  destruct s as [|c0 s']; [done|]. simpl. intros H. exists c0, s'.
  split; [done|]. by apply negb_true_iff.
Qed.

Lemma delivered_found (w : World) (c : LoggerRef) (lvl : Z) (h : Handler) :
  h ∈ delivered (callHandlers w c lvl) → h ∈ found w c.
Proof.
  unfold callHandlers. destruct (found w c) as [|h' hs]; simpl.
  - intros H. by apply elem_of_nil in H.
  - intros H. apply list_elem_of_In.
    destruct (hlevel h' <=? lvl).
    + apply list_elem_of_In in H. simpl in H. destruct H as [->|H]; [by left|].
      right. by apply filter_In in H as [? _].
    + apply list_elem_of_In, filter_In in H as [H _]. by right.
Qed.

(** C6 (amended). After a returning [setup_logger] and any sequence of the
    three operations, the project's logger does not propagate; a record
    emitted through it consults this logger only and is delivered to its own
    handlers only, the last-resort handler of the library being used only
    when it has none; and for every name that is not empty and does not start
    with a dot, the loggers consulted for a record emitted through
    [get_logger(name)] never include the library's root logger. *)
Theorem isolation_after_initialize (c : LoggerConfig) (ops : list operation)
    (w w1 : World) (lg : LoggerRef) :
  setup_logger c w = (Returns lg, w1) →
  let w2 := run_operations ops w1 in
  propagate (logger_at w2 lg) = false ∧
  visited w2 lg = [lg] ∧
  (∀ lvl h, h ∈ delivered (callHandlers w2 lg lvl) →
            h ∈ handlers (logger_at w2 lg)) ∧
  (∀ lvl, to_lastResort (callHandlers w2 lg lvl) = true →
          handlers (logger_at w2 lg) = []) ∧
  (∀ s, regular s = true →
        (get_logger (Some s) w2).1 = Returns (Named (child_name s)) ∧
        RootLogger ∉ visited (get_logger (Some s) w2).2 (Named (child_name s))).
Proof.
  intros H w2.
  apply setup_logger_returns in H as (z & f' & Hz & Hf & -> & ->).
  assert (isolated w2) as Hiso.
  { apply isolated_run_operations. eexists. split; [apply lookup_insert_eq|done]. }
  destruct (isolated_logger_at w2 Hiso) as [Hp Hl].
  assert (found w2 (Named LOGGER_NAME)
          = handlers (logger_at w2 (Named LOGGER_NAME))) as Hfound.
  { unfold found. rewrite visited_no_propagate by done. simpl.
    by rewrite app_nil_r. }
  split; [done|]. split; [by apply visited_no_propagate|]. split; [|split].
  - intros lvl h Hh. apply delivered_found in Hh. by rewrite Hfound in Hh.
  - intros lvl. unfold callHandlers. rewrite Hfound.
    by destruct (handlers (logger_at w2 (Named LOGGER_NAME))).
  - intros s Hs. destruct (regular_inv s Hs) as (c0 & s' & -> & Hc0). split.
    + by rewrite get_logger_run.
    + apply (child_never_reaches_root _
               (isolated_run_operation (GetLogger (Some (String c0 s'))) w2 Hiso)
               (S (String.length s'))); [lia|done].
Qed.

Lemma isolation_after_initialize_witness :
  propagate (logger_at
      (run_operations [GetLogger (Some "db"); SuppressThirdParty "ERROR"]
         (setup_logger default_config fresh_world).2)
      (Named LOGGER_NAME)) = false.
Proof.
  apply (isolation_after_initialize default_config
           [GetLogger (Some "db"); SuppressThirdParty "ERROR"] fresh_world
           (setup_logger default_config fresh_world).2 (Named LOGGER_NAME)).
  vm_compute. reflexivity.
Defined.

Lemma callHandlers_found (w : World) (c c' : LoggerRef) (lvl : Z) :
  found w c = found w c' → callHandlers w c lvl = callHandlers w c' lvl.
Proof. unfold callHandlers. by intros ->. Qed.



Lemma tidy_fresh_world : tidy fresh_world.
Proof.
  intros s l H. unfold fresh_world in H. cbn [loggerDict] in H.
  by rewrite lookup_empty in H.
Qed.

Lemma tidy_ambient_world : tidy ambient_world.
Proof.
  intros s l H. unfold ambient_world in H. cbn [loggerDict] in H.
  by rewrite lookup_empty in H.
Qed.



(** C6 (as stated) fails: after [setup_logger], a record emitted through
    [get_logger(".x")] is delivered to the handler of the library's root
    logger; and with both sinks disabled a record of severity ERROR emitted
    through the project's logger goes to the library's last-resort handler. *)
Lemma isolation_counterexample :
  (setup_logger default_config ambient_world).1 = Returns (Named LOGGER_NAME) ∧
  ambient_handler ∈ handlers (root ambient_world) ∧
  delivered
    (callHandlers
       (run_operations [Initialize default_config; GetLogger (Some ".x")]
          ambient_world)
       (Named (child_name ".x")) ERROR) = [ambient_handler] ∧
  callHandlers
    (run_operations [Initialize (with_sinks false false default_config)]
       fresh_world)
    (Named LOGGER_NAME) ERROR
  = {| delivered := []; to_lastResort := true |}.
Proof.
  split; [by vm_compute|]. split; [constructor|]. split; by vm_compute.
Qed.

(** ** [setup_logger]: what it leaves alone, and how it fails *)



Lemma checkLevel_accepted (n : string) (d z : Z) :
  _checkLevel (logging_getattr n (PInt d)) = inr z →
  z ∈ [d; NOTSET; DEBUG; INFO; WARNING; ERROR; CRITICAL].
Proof.
  unfold logging_getattr, logging_attributes, assoc.
  intros He.
  repeat match type of He with
  | context [String.eqb ?a ?b] =>
      destruct (String.eqb_spec a b) as [E|_];
      [simpl in He; try discriminate; injection He as <-; repeat constructor|]
  end.
  simpl in He. injection He as <-. repeat constructor.
Qed.



(** X3. When the level is accepted and the directory or the file cannot be
    made, [setup_logger] raises with the project's logger already
    reconfigured: the new level, no propagation, the old handlers gone, and
    the console handler as its only handler when the console is enabled
    (no handler at all otherwise). *)
Theorem setup_logger_file_failure_state (c : LoggerConfig) (w : World)
    (z : Z) (e : exn) :
  _checkLevel (requested_level (log_level c)) = inr z →
  prepare_file c (fs w) = inl e →
  let r := setup_logger c w in
  r.1 = Raises e ∧
  level (logger_at r.2 (Named LOGGER_NAME)) = z ∧
  propagate (logger_at r.2 (Named LOGGER_NAME)) = false ∧
  hkind <$> handlers (logger_at r.2 (Named LOGGER_NAME))
    = (if enable_console c then [StreamHandler] else []) ∧
  (∀ h, h ∈ handlers (logger_at r.2 (Named LOGGER_NAME)) → hid h = next_id w).
Proof.
  intros Hz Hf r. subst r. rewrite setup_logger_run.
  unfold setup_logger_outcome, prepare_file in *. rewrite Hz.
  destruct (enable_file c); [|done].
  assert (∀ h, h ∈ sinks_from (next_id w)
                     (if enable_console c then [StreamHandler] else []) →
               hid h = next_id w) as Hid.
  { intros h Hh. destruct (enable_console c); simpl in Hh.
    - by apply list_elem_of_singleton in Hh as ->.
    - by apply elem_of_nil in Hh. }
  destruct (mkdir_parents _ _ _) as [e'|f1].
  - injection Hf as ->. cbn [fst snd]. rewrite logger_at_stage. simpl.
    split_and!; try done. apply sinks_from_kinds.
  - destruct (open_append _ f1) as [e'|f2]; [|done].
    injection Hf as ->. cbn [fst snd]. rewrite logger_at_stage. simpl.
    split_and!; try done. apply sinks_from_kinds.
Qed.

Lemma setup_logger_file_failure_state_witness :
  hkind <$> handlers (logger_at (setup_logger default_config readonly_world).2
                        (Named LOGGER_NAME)) = [StreamHandler].
Proof.
  apply (setup_logger_file_failure_state default_config readonly_world INFO
           (OSError "mkdir")); reflexivity.
Defined.

Lemma mkdir_parents_dirs (a : bool) (rp : list string) :
  ∀ f f', mkdir_parents a rp f = inr f' → dirs f ⊆ dirs f'.
Proof.
  induction rp as [|x rp IH]; intros f f' H; cbn [mkdir_parents] in H.
  - by destruct (is_dir f (a, rev [])), (is_file f (a, rev [])); simplify_eq.
  - destruct (is_dir f (a, rev (x :: rp))); [by simplify_eq|].
    destruct (is_file f (a, rev (x :: rp))); [done|].
    destruct (mkdir_parents a rp f) as [e|f1] eqn:H1; [done|].
    destruct (permits f1 (a, rev (x :: rp))); [|done].
    injection H as <-. apply IH in H1. unfold add_dir. simpl.
    intros q Hq. apply elem_of_union. right. by apply H1.
Qed.

(** X4. [setup_logger] never removes a directory or a file; with the file
    sink disabled it leaves the file system as it was; and the only file it
    can create is the configured log file. *)
Theorem setup_logger_file_system (c : LoggerConfig) (w : World) :
  let f' := fs (setup_logger c w).2 in
  (enable_file c = false → f' = fs w) ∧
  dirs (fs w) ⊆ dirs f' ∧
  files (fs w) ⊆ files f' ∧
  (∀ p, p ∈ files f' → p ∈ files (fs w) ∨ p = Path_of (log_file_path c)).
Proof.
  rewrite setup_logger_run. unfold setup_logger_outcome, put_logger.
  destruct (_checkLevel _) as [e|z].
  { cbn [snd fs stage]. split_and!; [done..|intros p Hp; by left]. }
  destruct (enable_file c);
    [|cbn [snd fs stage]; split_and!; [done..|intros p Hp; by left]].
  destruct (mkdir_parents _ _ _) as [e|f1] eqn:H1;
    [cbn [snd fs stage]; split_and!; [done..|intros p Hp; by left]|].
  pose proof (mkdir_parents_dirs _ _ _ _ H1) as Hd.
  apply mkdir_parents_spec in H1 as (_ & Hfiles & _).
  destruct (open_append _ f1) as [e|f2] eqn:H2; cbn [snd fs stage].
  - rewrite Hfiles. split_and!; [done..|intros p Hp; by left].
  - apply open_append_spec in H2 as [-> _]. unfold add_file. cbn [dirs files].
    rewrite Hfiles. split_and!; [done|done| |].
    + intros p Hp. apply elem_of_union. by right.
    + intros p Hp. apply elem_of_union in Hp as [Hp|Hp]; [right|by left].
      by apply elem_of_singleton in Hp.
Qed.

(** ** Emission through the configured logger *)

Lemma makeRecord_no_extra (rt : Runtime) (n : string) (lvl : Z) (site : CallSite)
    (m : message) :
  ∃ r, makeRecord rt n lvl site m ∅ = inr r ∧ name r = n ∧ levelno r = lvl ∧
       msg r = m ∧ extra r = ∅.
Proof. eexists. split; [reflexivity|done]. Qed.

Lemma isEnabledFor_own_level (w : World) (n : string) (lvl : Z) :
  disabled (logger_at w (Named n)) = false →
  level (logger_at w (Named n)) ≠ 0 →
  isEnabledFor w (Named n) lvl =
  (manager_disable w <? lvl) && (level (logger_at w (Named n)) <=? lvl).
Proof.
  intros Hd Hl. unfold isEnabledFor. rewrite Hd, getEffectiveLevel_named.
  destruct (Z.eqb_spec (level (logger_at w (Named n))) 0) as [?|_]; [done|].
  simpl negb. cbv iota.
  destruct (Z.leb_spec lvl (manager_disable w)), (Z.ltb_spec (manager_disable w) lvl);
    try lia; done.
Qed.

(** X5. After [setup_logger] has returned with a level other than NOTSET,
    a logging call without extras through the returned logger (not disabled,
    severity above the manager's [disable] threshold) is dropped exactly
    when its severity is below the configured level; otherwise one record is
    made, under the name [mariadb_mcp] and with that severity, and handed to
    exactly the sinks the configuration selects. The call never raises. *)
Theorem setup_logger_threshold (c : LoggerConfig) (w w' : World) (lg : LoggerRef)
    (rt : Runtime) (lvl : Z) (site : CallSite) (m : message) :
  setup_logger c w = (Returns lg, w') →
  disabled (logger_at w lg) = false →
  manager_disable w < lvl →
  level (logger_at w' lg) ≠ NOTSET →
  match Logger_log w' rt lg lvl site m ∅ with
  | inr None => lvl < level (logger_at w' lg)
  | inr (Some em) =>
      level (logger_at w' lg) ≤ lvl ∧
      name (emitted em) = LOGGER_NAME ∧
      levelno (emitted em) = lvl ∧
      hkind <$> delivered (delivery em) = selected_sinks c
  | inl _ => False
  end.
Proof.
  intros H Hd Hm Hl.
  apply setup_logger_returns in H as (z & f' & Hz & Hf & -> & ->).
  rewrite logger_at_stage in *. cbn [level configured] in *.
  apply checkLevel_accepted in Hz.
  assert (10 ≤ z) as Hz10.
  { repeat (apply elem_of_cons in Hz as [->|Hz]); try done;
      try (unfold DEBUG, INFO, WARNING, ERROR, CRITICAL; lia).
    by apply elem_of_nil in Hz. }
  unfold Logger_log.
  rewrite isEnabledFor_own_level; rewrite ?logger_at_stage; cbn [level disabled configured];
    [|done|done].
  cbn [manager_disable stage].
  destruct (Z.ltb_spec (manager_disable w) lvl) as [_|?]; [|lia].
  destruct (Z.leb_spec z lvl) as [Hle|Hlt]; simpl andb; cbv iota; [|done].
  destruct (makeRecord_no_extra rt (logger_name (Named LOGGER_NAME)) lvl site m)
    as (r & -> & Hn & Hlv & _).
  cbn [emitted delivery]. split; [done|]. split; [done|]. split; [done|].
  rewrite callHandlers_own_sinks; rewrite ?logger_at_stage; cbn [propagate handlers configured].
  - apply sinks_from_kinds.
  - done.
  - intros h Hh. by eapply sinks_from_hlevel.
  - lia.
Qed.

Lemma setup_logger_threshold_witness :
  match
    Logger_log (setup_logger default_config fresh_world).2 sample_runtime
      (Named LOGGER_NAME) DEBUG sample_site (MsgStr "started") ∅
  with
  | inr None =>
      DEBUG < level (logger_at (setup_logger default_config fresh_world).2
                       (Named LOGGER_NAME))
  | inr (Some em) =>
      level (logger_at (setup_logger default_config fresh_world).2
               (Named LOGGER_NAME)) ≤ DEBUG ∧
      name (emitted em) = LOGGER_NAME ∧
      levelno (emitted em) = DEBUG ∧
      hkind <$> delivered (delivery em) = selected_sinks default_config
  | inl _ => False
  end.
Proof.
  apply (setup_logger_threshold default_config fresh_world
           (setup_logger default_config fresh_world).2 (Named LOGGER_NAME)
           sample_runtime DEBUG sample_site (MsgStr "started")).
  - vm_compute. reflexivity.
  - reflexivity.
  - reflexivity.
  - vm_compute. discriminate.
Defined.

(** X6. A child logger obtained before a re-initialisation follows it: after
    any sequence of operations and a returning [setup_logger c], a logger
    [mariadb_mcp.<s>] ([s] not starting with a dot) hands every record to
    the handlers of the project's logger, which are exactly the sinks [c]
    selects, and has the effective level of the project's logger. *)
Theorem children_follow_reinitialisation (ops : list operation) (w0 w' : World)
    (c : LoggerConfig) (lg : LoggerRef) (s : string) (lvl : Z) :
  tidy w0 →
  regular s = true →
  setup_logger c (run_operations ops w0) = (Returns lg, w') →
  0 ≤ lvl →
  callHandlers w' (Named (child_name s)) lvl = callHandlers w' lg lvl ∧
  hkind <$> delivered (callHandlers w' (Named (child_name s)) lvl)
    = selected_sinks c ∧
  getEffectiveLevel w' (Named (child_name s)) = getEffectiveLevel w' lg.
Proof.
  intros Ht Hs H Hlvl.
  assert (tidy w') as Ht'.
  { pose proof (tidy_run_operation (Initialize c) _ (tidy_run_operations ops w0 Ht))
      as Hi. simpl in Hi. by rewrite H in Hi. }
  apply setup_logger_returns in H as (z & f' & Hz & Hf & -> & ->).
  destruct (regular_inv s Hs) as (c0 & s' & -> & Hc0).
  destruct (child_delegates _ Ht' (S (String.length s')) c0 s') as [Hfound Hlevel];
    [lia|done|].
  split; [by apply callHandlers_found|]. split; [|done].
  rewrite (callHandlers_found _ _ _ _ Hfound).
  rewrite callHandlers_own_sinks; rewrite ?logger_at_stage; cbn [propagate handlers configured].
  - apply sinks_from_kinds.
  - done.
  - intros h Hh. by eapply sinks_from_hlevel.
  - done.
Qed.

Lemma children_follow_reinitialisation_witness :
  hkind <$> delivered
    (callHandlers
       (setup_logger (with_sinks true false default_config)
          (run_operations [GetLogger (Some "db"); Initialize default_config]
             fresh_world)).2
       (Named (child_name "db")) ERROR)
  = selected_sinks (with_sinks true false default_config).
Proof.
  apply (children_follow_reinitialisation
           [GetLogger (Some "db"); Initialize default_config] fresh_world
           (setup_logger (with_sinks true false default_config)
              (run_operations [GetLogger (Some "db"); Initialize default_config]
                 fresh_world)).2
           (with_sinks true false default_config) (Named LOGGER_NAME) "db" ERROR
           tidy_fresh_world eq_refl).
  - vm_compute. reflexivity.
  - done.
Defined.

(** ** [setup_third_party_logging]: outcome, repetition, threshold *)

Lemma world_eq (w1 w2 : World) :
  root w1 = root w2 →
  (∀ n, loggerDict w1 !! n = loggerDict w2 !! n) →
  manager_disable w1 = manager_disable w2 →
  next_id w1 = next_id w2 →
  fs w1 = fs w2 →
  w1 = w2.
Proof.
  intros Hr Hd Hm Hn Hf. rewrite (world_eta w1), (world_eta w2).
  rewrite Hr, Hm, Hn, Hf. f_equal. by apply map_eq.
Qed.

(** The outcome of [setup_third_party_logging] in closed form: with a
    rejected level the first logger of the list has been looked up (and so
    exists), nothing else; with an accepted level every listed logger has
    been set. *)
Lemma third_party_run (s : string) (w : World) :
  setup_third_party_logging s w =
  match _checkLevel (third_party_level s) with
  | inl e => (Raises e, put_logger "fastmcp" (logger_at w (Named "fastmcp")) w)
  | inr z => (Returns tt, foldl (suppress_step z) w third_party_loggers)
  end.
Proof.
  unfold setup_third_party_logging. fold (third_party_level s).
  destruct (_checkLevel (third_party_level s)) as [e|z] eqn:Hv.
  - exact (suppress_loop_raise (third_party_level s) e "fastmcp"
             (tail third_party_loggers) w Hv eq_refl).
  - apply (suppress_loop_run (third_party_level s) z); [done|].
    apply third_party_names_ok.
Qed.

Lemma suppress_fold_logger_at (z : Z) (names : list string) (w : World) (n : string) :
  logger_at (foldl (suppress_step z) w names) (Named n) =
  if bool_decide (n ∈ names) then suppressed z (logger_at w (Named n))
  else logger_at w (Named n).
Proof.
  unfold logger_at at 1. rewrite suppress_fold_lookup.
  by destruct (bool_decide (n ∈ names)).
Qed.

(** The loggers [setup_third_party_logging] leaves, entry by entry. *)
Lemma third_party_lookup (s : string) (w : World) (n : string) :
  loggerDict (setup_third_party_logging s w).2 !! n =
  match _checkLevel (third_party_level s) with
  | inl _ =>
      if bool_decide (n = "fastmcp") then Some (default new_Logger (loggerDict w !! n))
      else loggerDict w !! n
  | inr z =>
      if bool_decide (n ∈ third_party_loggers)
      then Some (suppressed z (default new_Logger (loggerDict w !! n)))
      else loggerDict w !! n
  end.
Proof.
  rewrite third_party_run. destruct (_checkLevel _) as [e|z]; cbn [snd].
  - unfold put_logger, stage, logger_at. cbn [loggerDict].
    case_bool_decide as Hn; [subst n; by rewrite lookup_insert_eq|].
    by rewrite lookup_insert_ne.
  - by rewrite suppress_fold_lookup.
Qed.

Lemma third_party_local (s : string) (w : World) :
  let w' := (setup_third_party_logging s w).2 in
  root w' = root w ∧ manager_disable w' = manager_disable w ∧
  next_id w' = next_id w ∧ fs w' = fs w ∧
  logger_at w' (Named LOGGER_NAME) = logger_at w (Named LOGGER_NAME).
Proof.
  intros w'. subst w'.
  assert (logger_at (setup_third_party_logging s w).2 (Named LOGGER_NAME)
          = logger_at w (Named LOGGER_NAME)) as Hl.
  { unfold logger_at. by rewrite third_party_lookup_outside by apply project_not_third_party. }
  revert Hl. rewrite third_party_run.
  destruct (_checkLevel _) as [e|z]; cbn [snd]; intros Hl.
  - done.
  - destruct (suppress_fold_frame z third_party_loggers w) as (? & ? & ? & ?). done.
Qed.


(** X8. The last call wins: after two calls with accepted levels the world
    is the one the second call alone would leave; in particular a repeated
    call changes nothing. *)
Theorem third_party_last_call_wins (s1 s2 : string) (w : World) (z1 z2 : Z) :
  _checkLevel (third_party_level s1) = inr z1 →
  _checkLevel (third_party_level s2) = inr z2 →
  setup_third_party_logging s2 (setup_third_party_logging s1 w).2
  = setup_third_party_logging s2 w.
Proof.
  intros H1 H2. rewrite !third_party_run, H1, H2. cbn [snd]. f_equal.
  destruct (suppress_fold_frame z1 third_party_loggers w) as (Hr1 & Hm1 & Hn1 & Hf1).
  destruct (suppress_fold_frame z2 third_party_loggers w) as (Hr2 & Hm2 & Hn2 & Hf2).
  destruct (suppress_fold_frame z2 third_party_loggers
              (foldl (suppress_step z1) w third_party_loggers))
    as (Hr3 & Hm3 & Hn3 & Hf3).
  apply world_eq; try congruence.
  intros n. rewrite !suppress_fold_lookup, suppress_fold_logger_at.
  unfold logger_at. by destruct (bool_decide (n ∈ third_party_loggers)).
Qed.

Lemma third_party_last_call_wins_witness :
  setup_third_party_logging "ERROR" (setup_third_party_logging "debug" uvicorn_world).2
  = setup_third_party_logging "ERROR" uvicorn_world.
Proof.
  apply (third_party_last_call_wins "debug" "ERROR" uvicorn_world DEBUG ERROR);
    reflexivity.
Defined.

(** X9. After [setup_third_party_logging] with an accepted level other
    than NOTSET, a logging call through a listed logger (not disabled,
    severity above the manager's [disable] threshold) is dropped if and only
    if its severity is below that level. *)
Theorem third_party_threshold (s : string) (w : World) (z : Z) (n : string)
    (rt : Runtime) (lvl : Z) (site : CallSite) (m : message)
    (ex : gmap string pyval) :
  _checkLevel (third_party_level s) = inr z →
  z ≠ NOTSET →
  n ∈ third_party_loggers →
  disabled (logger_at w (Named n)) = false →
  manager_disable w < lvl →
  Logger_log (setup_third_party_logging s w).2 rt (Named n) lvl site m ex = inr None
  ↔ lvl < z.
Proof.
  intros Hz Hz0 Hn Hd Hm. rewrite third_party_run, Hz. cbn [snd].
  unfold Logger_log. rewrite isEnabledFor_own_level.
  - destruct (suppress_fold_frame z third_party_loggers w) as (_ & -> & _).
    rewrite suppress_fold_logger_at, bool_decide_eq_true_2 by done.
    cbn [level suppressed with_propagate with_level].
    destruct (Z.ltb_spec (manager_disable w) lvl) as [_|?]; [|lia].
    destruct (Z.leb_spec z lvl) as [Hle|Hlt]; simpl andb; cbv iota.
    + split; [|lia]. by destruct (makeRecord _ _ _ _ _ _).
    + done.
  - by rewrite suppress_fold_logger_at, bool_decide_eq_true_2.
  - by rewrite suppress_fold_logger_at, bool_decide_eq_true_2.
Qed.

Lemma third_party_threshold_witness :
  Logger_log (setup_third_party_logging "error" fresh_world).2 sample_runtime
    (Named "uvicorn") WARNING sample_site (MsgStr "noise") ∅ = inr None.
Proof.
  apply (third_party_threshold "error" fresh_world ERROR "uvicorn" sample_runtime
           WARNING sample_site (MsgStr "noise") ∅).
  - reflexivity.
  - discriminate.
  - repeat constructor.
  - reflexivity.
  - reflexivity.
  - reflexivity.
Defined.

Lemma third_party_listed (s : string) (w : World) (z : Z) (n : string) :
  _checkLevel (third_party_level s) = inr z →
  n ∈ third_party_loggers →
  let w' := (setup_third_party_logging s w).2 in
  logger_at w' (Named n) = suppressed z (logger_at w (Named n)) ∧
  is_logger w' n = true.
Proof.
  intros Hz Hn w'. subst w'. rewrite third_party_run, Hz. cbn [snd]. split.
  - by rewrite suppress_fold_logger_at, bool_decide_eq_true_2.
  - unfold is_logger. apply bool_decide_eq_true.
    rewrite suppress_fold_lookup, bool_decide_eq_true_2 by done. by eexists.
Qed.

(** X10. After [setup_third_party_logging] with an accepted level, every
    listed logger propagates up to the library's root logger, whatever its
    [propagate] flag was before: its records visit the logger itself,
    [uvicorn] for the two loggers below it, and the root logger, so every
    handler of the root logger is among the handlers they find. *)
Theorem third_party_reaches_root (s : string) (w : World) (z : Z) (n : string) :
  _checkLevel (third_party_level s) = inr z →
  n ∈ third_party_loggers →
  let w' := (setup_third_party_logging s w).2 in
  visited w' (Named n) =
    (if bool_decide (n ∈ [ "uvicorn.access"; "uvicorn.error" ])
     then [ Named n; Named "uvicorn"; RootLogger ]
     else [ Named n; RootLogger ]) ∧
  ∀ h, h ∈ handlers (root w) → h ∈ found w' (Named n).
Proof.
  intros Hz Hn w'.
  assert (∀ m, m ∈ third_party_loggers →
            propagate (logger_at w' (Named m)) = true ∧ is_logger w' m = true) as Hall.
  { intros m Hm. destruct (third_party_listed s w z m Hz Hm) as [Hl Hi].
    subst w'. by rewrite Hl, Hi. }
  assert (visited w' (Named n) =
            (if bool_decide (n ∈ [ "uvicorn.access"; "uvicorn.error" ])
             then [ Named n; Named "uvicorn"; RootLogger ]
             else [ Named n; RootLogger ])) as Hv.
  { destruct (Hall "uvicorn") as [Hup Hul]; [repeat constructor|].
    assert (visited w' (Named "uvicorn") = [Named "uvicorn"; RootLogger]) as Hu.
    { rewrite visited_named, Hup.
      change (parent_of w' "uvicorn") with RootLogger. by rewrite visited_root. }
    destruct (Hall n Hn) as [Hp _].
    rewrite visited_named, Hp.
    repeat (apply elem_of_cons in Hn as [->|Hn]);
      [..|by apply elem_of_nil in Hn];
      rewrite ?bool_decide_eq_true_2 by repeat constructor;
      rewrite ?bool_decide_eq_false_2
        by (intros Hin; repeat (apply elem_of_cons in Hin as [[=]|Hin]);
            by apply elem_of_nil in Hin).
    all: try (change (parent_of w' _) with RootLogger; by rewrite visited_root).
    all: unfold parent_of; cbn [ancestor_names]; 
      change (ancestor_names _) with ["uvicorn"]; cbn [List.find]; rewrite Hul, Hu; done. }
  split; [done|]. intros h Hh. unfold found. rewrite Hv.
  assert (root w' = root w) as Hr by apply third_party_local.
  destruct (bool_decide _); cbn [fmap list_fmap concat logger_at];
    rewrite Hr, !elem_of_app; auto.
Qed.

Lemma third_party_reaches_root_witness :
  ambient_handler ∈
    found (setup_third_party_logging "warning" ambient_world).2 (Named "uvicorn.access").
Proof.
  apply (third_party_reaches_root "warning" ambient_world WARNING "uvicorn.access").
  - reflexivity.
  - repeat constructor.
  - repeat constructor.
Defined.

(** [setup_logger] reads the project's logger, the next handler identity and
    the file system, and writes nothing else. *)
Lemma setup_logger_local (c : LoggerConfig) (w1 w2 : World) :
  logger_at w1 (Named LOGGER_NAME) = logger_at w2 (Named LOGGER_NAME) →
  next_id w1 = next_id w2 →
  fs w1 = fs w2 →
  ∃ o l k f,
    setup_logger c w1 = (o, stage LOGGER_NAME l k f w1) ∧
    setup_logger c w2 = (o, stage LOGGER_NAME l k f w2).
Proof.
  intros Hl Hk Hf. rewrite !setup_logger_run. unfold setup_logger_outcome, put_logger.
  rewrite <- Hl, <- Hk, <- Hf.
  destruct (_checkLevel _) as [e|z]; [by eexists _, _, _, _|].
  destruct (enable_file c); [|by eexists _, _, _, _].
  destruct (mkdir_parents _ _ _); [by eexists _, _, _, _|].
  destruct (open_append _ _); by eexists _, _, _, _.
Qed.

(** X11. [setup_logger] and [setup_third_party_logging] commute: in either
    order, and whether or not one of them raises, the two calls leave the
    same world. *)
Theorem setup_logger_third_party_commute (c : LoggerConfig) (s : string) (w : World) :
  run_operations [Initialize c; SuppressThirdParty s] w
  = run_operations [SuppressThirdParty s; Initialize c] w.
Proof.
  unfold run_operations. cbn [foldl run_operation].
  destruct (third_party_local s w) as (Hr & Hm & Hk & Hf & Hl).
  destruct (setup_logger_local c w (setup_third_party_logging s w).2)
    as (o & l & k & f & H1 & H2); [done..|].
  rewrite H1, H2. cbn [snd].
  destruct (third_party_local s (stage LOGGER_NAME l k f w)) as (Hr' & Hm' & Hk' & Hf' & _).
  apply world_eq.
  - by rewrite Hr'.
  - intros n. rewrite third_party_lookup. unfold stage. cbn [loggerDict].
    destruct (decide (n = LOGGER_NAME)) as [->|Hn].
    + rewrite !lookup_insert_eq.
      rewrite (bool_decide_eq_false_2 (LOGGER_NAME ∈ third_party_loggers))
        by apply project_not_third_party.
      rewrite (bool_decide_eq_false_2 (LOGGER_NAME = "fastmcp")) by done.
      by destruct (_checkLevel _).
    + rewrite !lookup_insert_ne by done. by rewrite third_party_lookup.
  - by rewrite Hm'.
  - by rewrite Hk'.
  - by rewrite Hf'.
Qed.

(** ** [get_logger]: frame and identity of the handle *)


Lemma child_name_inj (s1 s2 : string) : child_name s1 = child_name s2 → s1 = s2.
Proof. unfold child_name, LOGGER_NAME. simpl. by intros [=]. Qed.

(** X13. Two calls of [get_logger], in whatever worlds, return the same
    handle exactly when their arguments are the same name, an absent name
    counting as the empty one: distinct component names never share a
    logger, and no component name yields the project's logger. *)
Theorem get_logger_same_handle (n1 n2 : option string) (w1 w2 : World) :
  (get_logger n1 w1).1 = (get_logger n2 w2).1 ↔
  default "" n1 = default "" n2.
Proof.
  rewrite !get_logger_run. cbn [fst].
  assert (∀ s, Named LOGGER_NAME ≠ Named (child_name s)) as Hne.
  { intros s E. apply (child_name_not_project s). congruence. }
  destruct n1 as [s1|], n2 as [s2|]; cbn [default];
    repeat match goal with
    | |- context [String.eqb ?s ""] => destruct (String.eqb_spec s "") as [->|?]
    end;
    try done.
  all: cbn [id]; split; intros E;
    solve [ congruence
          | apply child_name_inj; congruence
          | exfalso; eapply Hne; (exact E || symmetry; exact E) ].
Qed.

(** ** The formatter: the full key set *)

Lemma base_required (r : LogRecord) (md : gmap string pyval) (k : string) :
  k ∈ required_fields the_formatter →
  JsonFormatter_add_fields the_formatter ∅ r md !! k =
  Some (default (record_get r k) (md !! k)).
Proof.
  intros Hk. unfold JsonFormatter_add_fields.
  rewrite merge_record_extra_skipped
    by (unfold skip_fields; apply elem_of_app; by left).
  rewrite lookup_union. destruct (md !! k) as [v|] eqn:Hmd.
  - cbn [default id]. by destruct (foldl _ _ _ !! k).
  - rewrite (left_id_L None _). cbn [default].
    rewrite required_fields_the_formatter in *. cbn [foldl].
    repeat (apply elem_of_cons in Hk as [->|Hk]; [by simplify_map_eq|]).
    by apply elem_of_nil in Hk.
Qed.


Lemma format_record_required (rt : Runtime) (r : LogRecord) (k : string) :
  k ∈ [ "name"; "funcName"; "lineno"; "message" ] →
  format_record rt the_formatter r !! k =
  JsonFormatter_add_fields the_formatter ∅ r (record_message_dict r) !! k ∧
  k ∈ required_fields the_formatter.
Proof.
  intros Hk. unfold format_record. split.
  - apply add_fields_other. intros Hin.
    repeat (apply elem_of_cons in Hk as [->|Hk];
            [repeat (apply elem_of_cons in Hin as [[=]|Hin]); by apply elem_of_nil in Hin|]).
    by apply elem_of_nil in Hk.
  - rewrite required_fields_the_formatter.
    repeat (apply elem_of_cons in Hk as [->|Hk]; [repeat constructor|]).
    by apply elem_of_nil in Hk.
Qed.

(** X14. Besides the fields [add_fields] sets, the formatted record carries
    [name], [funcName] and [lineno] from the format string, each with the
    attribute of the log record unless a dictionary message has that key,
    whose value then takes its place; and [message], which for a text
    message is that text. *)
Theorem required_fields_values (rt : Runtime) (r : LogRecord) :
  let out := format_record rt the_formatter r in
  let md := record_message_dict r in
  out !! "name" = Some (default (PStr (name r)) (md !! "name")) ∧
  out !! "funcName" = Some (default (PStr (funcName r)) (md !! "funcName")) ∧
  out !! "lineno" = Some (default (PInt (lineno r)) (md !! "lineno")) ∧
  (∀ s, msg r = MsgStr s → out !! "message" = Some (PStr s)).
Proof.
  assert (∀ k, k ∈ [ "name"; "funcName"; "lineno"; "message" ] →
            format_record rt the_formatter r !! k =
            Some (default (record_get r k) (record_message_dict r !! k))) as H.
  { intros k Hk. destruct (format_record_required rt r k Hk) as [-> Hreq].
    by apply base_required. }
  cbv zeta. split_and!.
  - apply H. repeat constructor.
  - apply H. repeat constructor.
  - apply H. repeat constructor.
  - intros s Hs. rewrite H by repeat constructor.
    unfold record_message_dict, record_get, record_message. by rewrite Hs.
Qed.



(** ** [config.py]: the module body *)

(** *** Strings *)

Lemma of_chars_app (a b : list ascii) :
  of_chars (a ++ b) = of_chars a +:+ of_chars b.
Proof. induction a as [|c a IH]; simpl; [done|]. by rewrite IH. Qed.

Lemma split_on_cons (sep : ascii) (l : list ascii) :
  ∀ cur, ∃ part parts, split_on sep l cur = part :: parts.
Proof.
  induction l as [|c l IH]; intros cur; simpl; [by eexists _, _|].
  destruct (Ascii.eqb c sep); [by eexists _, _|]. apply IH.
Qed.

Lemma split_on_join (sep : ascii) (l : list ascii) :
  ∀ cur,
    String.concat (String sep EmptyString) (of_chars <$> split_on sep l cur)
    = of_chars (rev cur ++ l).
Proof.
  induction l as [|c l IH]; intros cur; cbn [split_on].
  - by rewrite app_nil_r.
  - destruct (Ascii.eqb_spec c sep) as [->|Hc].
    + destruct (split_on_cons sep l []) as (part & parts & Hs).
      specialize (IH []). rewrite Hs in *. rewrite !fmap_cons in *.
      change (String.concat (String sep "") (of_chars (rev cur) :: of_chars part :: (of_chars <$> parts)))
        with (of_chars (rev cur) +:+ String sep ""
              +:+ String.concat (String sep "") (of_chars part :: (of_chars <$> parts))).
      rewrite IH. cbn [rev app]. by rewrite of_chars_app.
    + rewrite IH. simpl rev. by rewrite <- app_assoc.
Qed.

Lemma elem_of_rev {A : Type} (x : A) (l : list A) : x ∈ rev l ↔ x ∈ l.
Proof. rewrite !list_elem_of_In. symmetry. apply in_rev. Qed.

Lemma split_on_parts (sep : ascii) (l : list ascii) :
  ∀ cur x, sep ∉ cur → x ∈ split_on sep l cur → sep ∉ x.
Proof.
  induction l as [|c l IH]; intros cur x Hcur; cbn [split_on].
  - intros ->%list_elem_of_singleton. by rewrite elem_of_rev.
  - destruct (Ascii.eqb_spec c sep) as [->|Hc].
    + intros [->|Hx]%elem_of_cons; [by rewrite elem_of_rev|].
      revert Hx. apply IH. apply not_elem_of_nil.
    + apply IH. intros [?|?]%elem_of_cons; [congruence|done].
Qed.

(** X16. The list settings ([ALLOWED_ORIGINS], [ALLOWED_HOSTS]): an unset
    or empty variable gives the default list; otherwise the list is never
    empty, no element holds a comma, and joining the elements with commas
    gives back the variable's text, so nothing is trimmed or dropped. *)
Theorem getenv_list_split (env : gmap string string) (key : string)
    (dflt : list string) :
  match env !! key with
  | Some (String c s) =>
      String.concat "," (getenv_list env key dflt) = String c s ∧
      getenv_list env key dflt ≠ [] ∧
      ∀ x, x ∈ getenv_list env key dflt → ("," : ascii) ∉ chars x
  | _ => getenv_list env key dflt = dflt
  end.
Proof.
  unfold getenv_list, str_split. destruct (env !! key) as [[|c s]|]; [done| |done].
  cbn [truthy String.eqb negb]. split_and!.
  - rewrite (split_on_join "," (chars (String c s)) []). apply of_chars_chars.
  - destruct (split_on_cons "," (chars (String c s)) []) as (? & ? & ->). done.
  - intros x (l & -> & Hl)%list_elem_of_fmap. rewrite chars_of_chars.
    revert Hl. apply split_on_parts. apply not_elem_of_nil.
Qed.

Lemma lower_char_letter (c d : ascii) :
  d ∈ [ "t"; "r"; "u"; "e" ]%char →
  lower_char c = d ↔ upper_char c = upper_char d.
Proof.
  intros Hd.
  repeat (apply elem_of_cons in Hd as [->|Hd]);
    [..|by apply elem_of_nil in Hd];
    destruct c as [[] [] [] [] [] [] [] []]; vm_compute;
    (split; intros H; first [reflexivity | discriminate H]).
Qed.

Lemma lower_true (v : string) : lower v = "true" ↔ upper v = "TRUE".
Proof.
  destruct v as [|c1 [|c2 [|c3 [|c4 [|c5 v]]]]]; simpl; try (split; discriminate).
  pose proof (lower_char_letter c1 "t") as H1.
  pose proof (lower_char_letter c2 "r") as H2.
  pose proof (lower_char_letter c3 "u") as H3.
  pose proof (lower_char_letter c4 "e") as H4.
  split; intros [= E1 E2 E3 E4]; f_equal; [apply H1|f_equal; [apply H2|f_equal; [apply H3|f_equal; apply H4]]| apply H1|f_equal; [apply H2|f_equal; [apply H3|f_equal; apply H4]]];
    first [done | repeat constructor].
Qed.

(** *** Running the module *)

Lemma Script_bind_run {A B : Type} (m : Script A) (f : A → Script B) (w : World) :
  Script_bind m f w =
  match m w with
  | (Returns a, w', t) => let '(r, w'', t') := f a w' in (r, w'', t ++ t')
  | (Raises e, w', t) => (Raises e, w', t)
  end.
Proof. reflexivity. Qed.

Lemma Script_bind_returns {A B : Type} (m : Script A) (f : A → Script B)
    (w w'' : World) (b : B) (t : list Emission) :
  Script_bind m f w = (Returns b, w'', t) →
  ∃ a w' t1 t2,
    m w = (Returns a, w', t1) ∧ f a w' = (Returns b, w'', t2) ∧ t = t1 ++ t2.
Proof.
  rewrite Script_bind_run. destruct (m w) as [[[a|e] w'] t1]; [|done].
  destruct (f a w') as [[r w2] t2] eqn:Hf. intros [= -> -> <-].
  by exists a, w', t1, t2.
Qed.

Lemma Script_try_returns {A : Type} (r : exn + A) (w w' : World) (a : A)
    (t : list Emission) :
  Script_try r w = (Returns a, w', t) → r = inr a ∧ w' = w ∧ t = [].
Proof. destruct r; [done|]. by intros [= -> -> <-]. Qed.

Lemma Script_lift_returns {A : Type} (m : M A) (w w' : World) (a : A)
    (t : list Emission) :
  Script_lift m w = (Returns a, w', t) → m w = (Returns a, w') ∧ t = [].
Proof. unfold Script_lift. destruct (m w) as [r w1]. by intros [= -> -> <-]. Qed.

Lemma Script_lift_run {A : Type} (m : M A) (w : World) :
  Script_lift m w = let '(r, w') := m w in (r, w', []).
Proof. reflexivity. Qed.

(** A logging call of the module returns, leaves the world as it is, and
    emits at most one record: through the logger, at the level and from the
    line of the call. *)
Lemma Script_log_run (rt : Z → Runtime) (lg : LoggerRef) (lvl line : Z)
    (text : string) (w : World) :
  ∃ t, Script_log rt lg lvl line text w = (Returns tt, w, t) ∧
       (t = [] ∨
        ∃ r, t = [ {| emitted := r; delivery := callHandlers w lg lvl |} ] ∧
             isEnabledFor w lg lvl = true ∧
             name r = logger_name lg ∧ levelno r = lvl ∧ module r = "config" ∧
             lineno r = line ∧ msg r = MsgStr text).
Proof.
  unfold Script_log, Logger_log. destruct (isEnabledFor w lg lvl); [|by eexists; split; [|left]].
  eexists. split; [reflexivity|]. right. by eexists.
Qed.

Lemma Script_log_returns (rt : Z → Runtime) (lg : LoggerRef) (lvl line : Z)
    (text : string) (w w' : World) (u : unit) (t : list Emission) :
  Script_log rt lg lvl line text w = (Returns u, w', t) → w' = w.
Proof.
  destruct (Script_log_run rt lg lvl line text w) as (t0 & -> & _). congruence.
Qed.

(** What the module has done when it returns. *)
Lemma config_module_returns (int_of_str : string → option Z) (rt : Z → Runtime)
    (env : gmap string string) (w w' : World) (s : Settings) (t : list Emission) :
  config_module int_of_str rt env w = (Returns s, w', t) →
  ∃ c w1,
    load_logger_config int_of_str env = inr c ∧
    setup_logger c w = (Returns (logger s), w1) ∧
    setup_third_party_logging (load_third_party_level env) w1 = (Returns tt, w') ∧
    getenv_int int_of_str env "DB_PORT" 3306 = inr (DB_PORT s) ∧
    getenv_int int_of_str env "MCP_MAX_POOL_SIZE" 10 = inr (MCP_MAX_POOL_SIZE s) ∧
    LOG_LEVEL s = log_level c ∧ LOG_FILE_PATH s = log_file_path c ∧
    LOG_MAX_BYTES s = log_max_bytes c ∧ LOG_BACKUP_COUNT s = log_backup_count c ∧
    MCP_READ_ONLY s = String.eqb (lower (getenv env "MCP_READ_ONLY" "true")) "true" ∧
    OPENAI_API_KEY s = env !! "OPENAI_API_KEY" ∧
    GEMINI_API_KEY s = env !! "GEMINI_API_KEY" ∧
    HF_MODEL s = env !! "HF_MODEL" ∧
    DB_USER s = env !! "DB_USER" ∧ DB_PASSWORD s = env !! "DB_PASSWORD" ∧
    let p := match env !! "EMBEDDING_PROVIDER" with
             | Some v => if truthy (PStr v) then Some (lower v) else None
             | None => None
             end in
    (p = Some "openai" ∧ EMBEDDING_PROVIDER s = p ∧
       truthy (opt_str (env !! "OPENAI_API_KEY")) = true ∨
     p = Some "gemini" ∧ EMBEDDING_PROVIDER s = p ∧
       truthy (opt_str (env !! "GEMINI_API_KEY")) = true ∨
     p = Some "huggingface" ∧ EMBEDDING_PROVIDER s = p ∧
       truthy (opt_str (env !! "HF_MODEL")) = true ∨
     (p ∉ [ Some "openai"; Some "gemini"; Some "huggingface" ]) ∧
       EMBEDDING_PROVIDER s = None).
Proof.
  unfold config_module. intros H.
  apply Script_bind_returns in H as (c & w0 & t0 & t0' & Hc & H & _).
  apply Script_try_returns in Hc as (Hc & -> & _).
  apply Script_bind_returns in H as (lg & w1 & t1 & t1' & Hlg & H & _).
  apply Script_lift_returns in Hlg as [Hlg _].
  apply Script_bind_returns in H as ([] & w2 & t2 & t2' & Htp & H & _).
  apply Script_lift_returns in Htp as [Htp _].
  apply Script_bind_returns in H as (port & w3 & t3 & t3' & Hport & H & _).
  apply Script_try_returns in Hport as (Hport & -> & _).
  apply Script_bind_returns in H as (pool & w4 & t4 & t4' & Hpool & H & _).
  apply Script_try_returns in Hpool as (Hpool & -> & _).
  apply Script_bind_returns in H as ([] & w5 & t5 & t5' & Hcred & H & _).
  assert (w5 = w2) as ->.
  { destruct (negb _); [by eapply Script_log_returns|by injection Hcred as <-]. }
  apply Script_bind_returns in H as ([] & w6 & t6 & t6' & Hsel & H & _).
  apply Script_log_returns in Hsel as ->.
  apply Script_bind_returns in H as (p & w7 & t7 & t7' & Hp & H & _).
  apply Script_bind_returns in H as ([] & w8 & t8 & t8' & Hro & H & _).
  apply Script_log_returns in Hro as ->.
  apply Script_bind_returns in H as ([] & w9 & t9 & t9' & Hfin & H & _).
  apply Script_log_returns in Hfin as ->.
  injection H as <- <- _.
  set (p0 := match env !! "EMBEDDING_PROVIDER" with
             | Some v => if truthy (PStr v) then Some (lower v) else None
             | None => None
             end) in *.
  assert (w7 = w2 ∧
          (p0 = Some "openai" ∧ p = p0 ∧
             truthy (opt_str (env !! "OPENAI_API_KEY")) = true ∨
           p0 = Some "gemini" ∧ p = p0 ∧
             truthy (opt_str (env !! "GEMINI_API_KEY")) = true ∨
           p0 = Some "huggingface" ∧ p = p0 ∧
             truthy (opt_str (env !! "HF_MODEL")) = true ∨
           (p0 ∉ [ Some "openai"; Some "gemini"; Some "huggingface" ]) ∧ p = None))
    as [-> Hprov].
  { revert Hp. clearbody p0.
    repeat case_bool_decide.
    - intros Hp. apply Script_bind_returns in Hp as ([] & wa & ta & ta' & Hk & Hp & _).
      destruct (truthy (opt_str (env !! "OPENAI_API_KEY"))) eqn:Hkey; simpl negb in Hk; cbv iota in Hk.
      + injection Hk as <- _. injection Hp as <- <-. split; [done|]. by left.
      + apply Script_bind_returns in Hk as ([] & wb & tb & tb' & _ & Hk & _). done.
    - intros Hp. apply Script_bind_returns in Hp as ([] & wa & ta & ta' & Hk & Hp & _).
      destruct (truthy (opt_str (env !! "GEMINI_API_KEY"))) eqn:Hkey; simpl negb in Hk; cbv iota in Hk.
      + injection Hk as <- _. injection Hp as <- <-. split; [done|]. by right; left.
      + apply Script_bind_returns in Hk as ([] & wb & tb & tb' & _ & Hk & _). done.
    - intros Hp. apply Script_bind_returns in Hp as ([] & wa & ta & ta' & Hk & Hp & _).
      destruct (truthy (opt_str (env !! "HF_MODEL"))) eqn:Hkey; simpl negb in Hk; cbv iota in Hk.
      + injection Hk as <- _. injection Hp as <- <-. split; [done|]. by right; right; left.
      + apply Script_bind_returns in Hk as ([] & wb & tb & tb' & _ & Hk & _). done.
    - intros Hp. apply Script_bind_returns in Hp as ([] & wa & ta & ta' & Hk & Hp & _).
      apply Script_log_returns in Hk as ->. injection Hp as <- <-. split; [done|].
      right; right; right. split; [|done].
      intros Hin. repeat (apply elem_of_cons in Hin as [?|Hin]; [done|]).
      by apply elem_of_nil in Hin. }
  exists c, w1. cbn. split_and!; done.
Qed.

Lemma logs_through_ret {A : Type} (lg : LoggerRef) (a : A) :
  logs_through lg (Script_ret a).
Proof. intros w. split; [done|]. by intros em ?%elem_of_nil. Qed.

Lemma logs_through_raise {A : Type} (lg : LoggerRef) (e : exn) :
  logs_through lg (Script_raise (A := A) e).
Proof. intros w. split; [done|]. by intros em ?%elem_of_nil. Qed.

Lemma logs_through_try {A : Type} (lg : LoggerRef) (r : exn + A) :
  logs_through lg (Script_try r).
Proof. destruct r; [apply logs_through_raise|apply logs_through_ret]. Qed.

Lemma logs_through_log (rt : Z → Runtime) (lg : LoggerRef) (lvl line : Z)
    (text : string) :
  lvl ∈ [INFO; ERROR] → logs_through lg (Script_log rt lg lvl line text).
Proof.
  intros Hlvl w.
  destruct (Script_log_run rt lg lvl line text w) as (t & -> & Ht). split; [done|].
  cbn [snd]. destruct Ht as [->|(r & -> & Hen & Hn & Hl & Hm & _)].
  - by intros em ?%elem_of_nil.
  - intros em ->%list_elem_of_singleton. cbn [emitted delivery]. rewrite Hl. done.
Qed.

Lemma logs_through_bind {A B : Type} (lg : LoggerRef) (m : Script A)
    (f : A → Script B) :
  logs_through lg m → (∀ a, logs_through lg (f a)) →
  logs_through lg (Script_bind m f).
Proof.
  intros Hm Hf w. rewrite Script_bind_run. destruct (Hm w) as [Hw Ht].
  destruct (m w) as [[[a|e] w'] t]; cbn [fst snd] in *; subst w'; [|done].
  destruct (Hf a w) as [Hw' Ht']. destruct (f a w) as [[r w''] t']; cbn [fst snd] in *.
  split; [done|]. intros em [?|?]%elem_of_app; auto.
Qed.

Ltac solve_logs_through :=
  repeat first
    [ apply logs_through_ret
    | apply logs_through_raise
    | apply logs_through_try
    | apply logs_through_log; repeat constructor
    | apply logs_through_bind; [|intros ?]
    | match goal with
      | |- logs_through _ (if ?b then _ else _) => destruct b
      end ].

(** The module from line 47 on: it touches no logger. *)
Lemma config_module_run (int_of_str : string → option Z) (rt : Z → Runtime)
    (env : gmap string string) (w : World) :
  match load_logger_config int_of_str env with
  | inl e => config_module int_of_str rt env w = (Raises e, w, [])
  | inr c =>
      match setup_logger c w with
      | (Raises e, w1) => config_module int_of_str rt env w = (Raises e, w1, [])
      | (Returns lg, w1) =>
          match setup_third_party_logging (load_third_party_level env) w1 with
          | (Raises e, w2) =>
              config_module int_of_str rt env w = (Raises e, w2, [])
          | (Returns _, w2) =>
              ∃ rest : Script Settings,
                logs_through lg rest ∧
                config_module int_of_str rt env w = rest w2
          end
      end
  end.
Proof.
  unfold config_module. cbv zeta. rewrite Script_bind_run.
  destruct (load_logger_config int_of_str env) as [e|c]; [reflexivity|].
  cbn [Script_try Script_ret]. cbv beta iota zeta.
  rewrite Script_bind_run, Script_lift_run.
  destruct (setup_logger c w) as [[lg|e] w1]; cbv beta iota zeta; [|reflexivity].
  rewrite Script_bind_run, Script_lift_run.
  destruct (setup_third_party_logging _ w1) as [[[]|e] w2]; cbv beta iota zeta;
    [|reflexivity].
  match goal with
  | |- context [Script_bind ?m ?f w2] => exists (Script_bind m f)
  end.
  split; [|by destruct (Script_bind _ _ w2) as [[? ?] ?]].
  unfold Logger_error, Logger_info. solve_logs_through.
Qed.

(** X17. When [config.py] loads, the embedding provider it ends with is
    [None] or one of [openai], [gemini], [huggingface], and for each of
    these the key it needs ([OPENAI_API_KEY], [GEMINI_API_KEY], [HF_MODEL])
    is set and not empty; a provider variable that names one of the three,
    in any letter case, is never dropped. So a selected provider without
    its key keeps the module from loading. *)
Theorem config_provider_validated (int_of_str : string → option Z)
    (rt : Z → Runtime) (env : gmap string string) (w w' : World) (s : Settings)
    (t : list Emission) :
  config_module int_of_str rt env w = (Returns s, w', t) →
  EMBEDDING_PROVIDER s ∈ [ None; Some "openai"; Some "gemini"; Some "huggingface" ] ∧
  (EMBEDDING_PROVIDER s = Some "openai" →
     ∃ k, env !! "OPENAI_API_KEY" = Some k ∧ k ≠ "") ∧
  (EMBEDDING_PROVIDER s = Some "gemini" →
     ∃ k, env !! "GEMINI_API_KEY" = Some k ∧ k ≠ "") ∧
  (EMBEDDING_PROVIDER s = Some "huggingface" →
     ∃ k, env !! "HF_MODEL" = Some k ∧ k ≠ "") ∧
  (∀ v, env !! "EMBEDDING_PROVIDER" = Some v →
     lower v ∈ [ "openai"; "gemini"; "huggingface" ] →
     EMBEDDING_PROVIDER s = Some (lower v)).
Proof.
  intros H. apply config_module_returns in H
    as (c & w1 & _ & _ & _ & _ & _ & _ & _ & _ & _ & _ & _ & _ & _ & _ & _ & Hp).
  cbv zeta in Hp.
  assert (∀ o, truthy (opt_str o) = true → ∃ k, o = Some k ∧ k ≠ "") as Hkey.
  { intros [k|]; [|done]. simpl. intros Hk. exists k. split; [done|].
    intros ->. done. }
  assert (∀ v, env !! "EMBEDDING_PROVIDER" = Some v →
            lower v ∈ [ "openai"; "gemini"; "huggingface" ] →
            match env !! "EMBEDDING_PROVIDER" with
            | Some v => if truthy (PStr v) then Some (lower v) else None
            | None => None
            end = Some (lower v)) as Hsel.
  { intros v -> Hv. destruct v; [|done].
    repeat (apply elem_of_cons in Hv as [[=]|Hv]). by apply elem_of_nil in Hv. }
  destruct Hp as [(Hp & -> & Hk)|[(Hp & -> & Hk)|[(Hp & -> & Hk)|(Hp & ->)]]].
  - rewrite Hp. split_and!; try done; [repeat constructor|by intros _; apply Hkey|].
    intros v Hv Hl. by rewrite <- (Hsel v Hv Hl).
  - rewrite Hp. split_and!; try done; [repeat constructor|by intros _; apply Hkey|].
    intros v Hv Hl. by rewrite <- (Hsel v Hv Hl).
  - rewrite Hp. split_and!; try done; [repeat constructor|by intros _; apply Hkey|].
    intros v Hv Hl. by rewrite <- (Hsel v Hv Hl).
  - split_and!; try done; [repeat constructor|].
    intros v Hv Hl. exfalso. apply Hp. rewrite (Hsel v Hv Hl).
    repeat (apply elem_of_cons in Hl as [->|Hl]; [repeat constructor|]).
    by apply elem_of_nil in Hl.
Qed.

Lemma config_provider_validated_witness :
  ∃ k, sample_env !! "OPENAI_API_KEY" = Some k ∧ k ≠ "".
Proof.
  set (r := config_module no_int (λ _, sample_runtime) sample_env fresh_world).
  destruct (config_provider_validated no_int (λ _, sample_runtime) sample_env
              fresh_world r.1.2 sample_settings r.2) as (_ & H & _).
  - vm_compute. reflexivity.
  - apply H. reflexivity.
Defined.








Lemma load_logger_config_sinks (int_of_str : string → option Z)
    (env : gmap string string) (c : LoggerConfig) :
  load_logger_config int_of_str env = inr c →
  enable_console c = true ∧ enable_file c = true ∧
  log_level c = upper (getenv env "LOG_LEVEL" "INFO") ∧
  log_file_path c = getenv env "LOG_FILE" "logs/mcp_server.log" ∧
  getenv_int int_of_str env "LOG_MAX_BYTES" (10 * 1024 * 1024) = inr (log_max_bytes c) ∧
  getenv_int int_of_str env "LOG_BACKUP_COUNT" 5 = inr (log_backup_count c).
Proof.
  unfold load_logger_config.
  destruct (getenv_int _ _ "LOG_MAX_BYTES" _) as [?|mb]; [done|].
  destruct (getenv_int _ _ "LOG_BACKUP_COUNT" _) as [?|bc]; [done|].
  by intros [= <-].
Qed.

(** X20. Every record [config.py] emits goes through the project's
    logger, from module [config], at INFO or ERROR, and is handed to exactly
    the console sink and the rotating-file sink built from the environment's
    file settings. *)
Theorem config_module_records (int_of_str : string → option Z)
    (rt : Z → Runtime) (env : gmap string string) (w : World) (c : LoggerConfig)
    (em : Emission) :
  load_logger_config int_of_str env = inr c →
  em ∈ (config_module int_of_str rt env w).2 →
  name (emitted em) = LOGGER_NAME ∧
  module (emitted em) = "config" ∧
  levelno (emitted em) ∈ [INFO; ERROR] ∧
  hkind <$> delivered (delivery em) =
    [ StreamHandler;
      RotatingFileHandler (Path_of (log_file_path c)) (log_max_bytes c)
        (log_backup_count c) ].
Proof.
  intros Hc Hem. pose proof (config_module_run int_of_str rt env w) as Hrun.
  rewrite Hc in Hrun.
  destruct (setup_logger c w) as [[lg|e] w1] eqn:Hsetup;
    [|rewrite Hrun in Hem; by apply elem_of_nil in Hem].
  pose proof (third_party_local (load_third_party_level env) w1)
    as (_ & _ & _ & _ & Hsame).
  destruct (setup_third_party_logging _ w1) as [[[]|e] w2];
    [|rewrite Hrun in Hem; by apply elem_of_nil in Hem].
  cbn [snd] in Hsame. destruct Hrun as (rest & Hrest & Hrun). rewrite Hrun in Hem.
  destruct (Hrest w2) as [_ Hlog]. destruct (Hlog em Hem) as (Hn & Hm & Hl & _ & Hd).
  apply setup_logger_returns in Hsetup as (z & f' & Hz & Hp & -> & ->).
  rewrite logger_at_stage in Hsame.
  destruct (load_logger_config_sinks _ _ _ Hc) as (Hcon & Hfile & _).
  split_and!; [done..|].
  rewrite Hd, callHandlers_own_sinks; rewrite ?Hsame; cbn [propagate handlers configured].
  - rewrite sinks_from_kinds. unfold selected_sinks. by rewrite Hcon, Hfile.
  - done.
  - intros h Hh. by eapply sinks_from_hlevel.
  - repeat (apply elem_of_cons in Hl as [->|Hl]; [done|]). by apply elem_of_nil in Hl.
Qed.

Lemma config_module_records_witness :
  ∃ em, em ∈ (config_module no_int (λ _, sample_runtime) sample_env fresh_world).2 ∧
        name (emitted em) = LOGGER_NAME.
Proof.
  set (t := (config_module no_int (λ _, sample_runtime) sample_env fresh_world).2).
  assert (∃ em, head t = Some em) as [em Hem] by (vm_compute; by eexists).
  exists em.
  assert (em ∈ t) as Hin by (by apply head_Some_elem_of).
  split; [exact Hin|].
  apply (config_module_records no_int (λ _, sample_runtime) sample_env fresh_world
           default_config em); [reflexivity|exact Hin].
Defined.

(** X21. When [config.py] loads, each of its four integer settings is the
    default when the variable is unset and the parsed text when it is set:
    a variable that is set to text [int] rejects keeps the module from
    loading. *)
Theorem config_integers_parsed (int_of_str : string → option Z)
    (rt : Z → Runtime) (env : gmap string string) (w w' : World) (s : Settings)
    (t : list Emission) :
  config_module int_of_str rt env w = (Returns s, w', t) →
  Forall (λ '(key, dflt, value),
            match env !! key with
            | Some v => int_of_str v = Some value
            | None => value = dflt
            end)
    [ ("LOG_MAX_BYTES", 10 * 1024 * 1024, LOG_MAX_BYTES s);
      ("LOG_BACKUP_COUNT", 5, LOG_BACKUP_COUNT s);
      ("DB_PORT", 3306, DB_PORT s);
      ("MCP_MAX_POOL_SIZE", 10, MCP_MAX_POOL_SIZE s) ].
Proof.
  intros H. apply config_module_returns in H
    as (c & w1 & Hc & _ & _ & Hport & Hpool & _ & _ & -> & -> & _).
  apply load_logger_config_sinks in Hc as (_ & _ & _ & _ & Hmb & Hbc).
  assert (∀ key dflt value,
            getenv_int int_of_str env key dflt = inr value →
            match env !! key with
            | Some v => int_of_str v = Some value
            | None => value = dflt
            end) as Hint.
  { intros key dflt value. unfold getenv_int. destruct (env !! key) as [v|].
    - destruct (int_of_str v); [by intros [= ->]|done].
    - by intros [= ->]. }
  repeat constructor; by apply Hint.
Qed.

Lemma config_integers_parsed_witness :
  Forall (λ '(key, dflt, value),
            match sample_env !! key with
            | Some v => no_int v = Some value
            | None => value = dflt
            end)
    [ ("LOG_MAX_BYTES", 10 * 1024 * 1024, LOG_MAX_BYTES sample_settings);
      ("LOG_BACKUP_COUNT", 5, LOG_BACKUP_COUNT sample_settings);
      ("DB_PORT", 3306, DB_PORT sample_settings);
      ("MCP_MAX_POOL_SIZE", 10, MCP_MAX_POOL_SIZE sample_settings) ].
Proof.
  set (r := config_module no_int (λ _, sample_runtime) sample_env fresh_world).
  apply (config_integers_parsed no_int (λ _, sample_runtime) sample_env
           fresh_world r.1.2 sample_settings r.2).
  vm_compute. reflexivity.
Defined.

(** X22. When [config.py] loads, read-only mode is on exactly when
    [MCP_READ_ONLY] is unset or spells [true] in some letter case: any
    other text, such as [1] or [yes], switches it off. *)
Theorem config_read_only (int_of_str : string → option Z) (rt : Z → Runtime)
    (env : gmap string string) (w w' : World) (s : Settings) (t : list Emission) :
  config_module int_of_str rt env w = (Returns s, w', t) →
  MCP_READ_ONLY s = true ↔
  match env !! "MCP_READ_ONLY" with
  | Some v => upper v = "TRUE"
  | None => True
  end.
Proof.
  intros H. apply config_module_returns in H
    as (c & w1 & _ & _ & _ & _ & _ & _ & _ & _ & _ & -> & _).
  unfold getenv. destruct (env !! "MCP_READ_ONLY") as [v|]; [|done]. cbn [default].
  rewrite <- lower_true. apply String.eqb_eq.
Qed.

Lemma config_read_only_witness :
  MCP_READ_ONLY sample_settings = true ↔
  match sample_env !! "MCP_READ_ONLY" with
  | Some v => upper v = "TRUE"
  | None => True
  end.
Proof.
  set (r := config_module no_int (λ _, sample_runtime) sample_env fresh_world).
  apply (config_read_only no_int (λ _, sample_runtime) sample_env fresh_world
           r.1.2 sample_settings r.2).
  vm_compute. reflexivity.
Defined.

(** *** Failures of the module, and its records under the configured level *)

Lemma Script_bind_raises {A B : Type} (m : Script A) (f : A → Script B)
    (w w'' : World) (e : exn) (t : list Emission) :
  Script_bind m f w = (Raises e, w'', t) →
  m w = (Raises e, w'', t) ∨
  ∃ a w' t1 t2,
    m w = (Returns a, w', t1) ∧ f a w' = (Raises e, w'', t2) ∧ t = t1 ++ t2.
Proof.
  rewrite Script_bind_run. destruct (m w) as [[[a|e'] w'] t1]; [|intros [= -> -> ->]; by left].
  destruct (f a w') as [[r w2] t2] eqn:Hf. intros [= -> -> <-].
  right. by exists a, w', t1, t2.
Qed.

Lemma Script_try_raises {A : Type} (r : exn + A) (w w' : World) (e : exn)
    (t : list Emission) :
  Script_try r w = (Raises e, w', t) → r = inl e.
Proof. destruct r; [|done]. by intros [= ->]. Qed.

Lemma Script_lift_raises {A : Type} (m : M A) (w w' : World) (e : exn)
    (t : list Emission) :
  Script_lift m w = (Raises e, w', t) → (m w).1 = Raises e.
Proof. unfold Script_lift. destruct (m w) as [r w1]. by intros [= -> _ _]. Qed.

Lemma Script_log_raises (rt : Z → Runtime) (lg : LoggerRef) (lvl line : Z)
    (text : string) (w w' : World) (e : exn) (t : list Emission) :
  Script_log rt lg lvl line text w = (Raises e, w', t) → False.
Proof.
  destruct (Script_log_run rt lg lvl line text w) as (t0 & -> & _). done.
Qed.

Lemma key_check_raises (rt : Z → Runtime) (lg : LoggerRef) (b : bool) (line : Z)
    (text : string) (e0 : exn) (w w' : World) (e : exn) (t : list Emission) :
  (if b then Script_bind (Logger_error rt lg line text) (λ _, Script_raise (A := unit) e0)
   else Script_ret tt) w = (Raises e, w', t) →
  b = true ∧ e = e0.
Proof.
  destruct b; [|done]. intros H.
  apply Script_bind_raises in H as [H|(a & w1 & t1 & t2 & _ & H & _)].
  - by apply Script_log_raises in H.
  - by injection H as <- _ _.
Qed.

(** X23. The complete list of reasons for which the body of [config.py]
    (after its imports and [load_dotenv()]) raises: a logging size that
    [int] rejects; the exception of [setup_logger]; the exception of
    [setup_third_party_logging]; a [DB_PORT] or [MCP_MAX_POOL_SIZE] that
    [int] rejects; or one of the three providers selected without its key,
    with the [ValueError] of that provider. No logging call of the module
    makes it fail. *)
Theorem config_module_failures (int_of_str : string → option Z)
    (rt : Z → Runtime) (env : gmap string string) (w w' : World) (e : exn)
    (t : list Emission) :
  config_module int_of_str rt env w = (Raises e, w', t) →
  let p := match env !! "EMBEDDING_PROVIDER" with
           | Some v => if truthy (PStr v) then Some (lower v) else None
           | None => None
           end in
  load_logger_config int_of_str env = inl e ∨
  (∃ c, load_logger_config int_of_str env = inr c ∧
        (setup_logger c w).1 = Raises e) ∨
  (∃ c, load_logger_config int_of_str env = inr c ∧
        (setup_third_party_logging (load_third_party_level env)
           (setup_logger c w).2).1 = Raises e) ∨
  getenv_int int_of_str env "DB_PORT" 3306 = inl e ∨
  getenv_int int_of_str env "MCP_MAX_POOL_SIZE" 10 = inl e ∨
  (p = Some "openai" ∧ truthy (opt_str (env !! "OPENAI_API_KEY")) = false ∧
   e = ValueError "OpenAI API key is required when EMBEDDING_PROVIDER is 'openai'.") ∨
  (p = Some "gemini" ∧ truthy (opt_str (env !! "GEMINI_API_KEY")) = false ∧
   e = ValueError "Gemini API key is required when EMBEDDING_PROVIDER is 'gemini'.") ∨
  (p = Some "huggingface" ∧ truthy (opt_str (env !! "HF_MODEL")) = false ∧
   e = ValueError "HuggingFace model is required when EMBEDDING_PROVIDER is 'huggingface'.").
Proof.
  unfold config_module. intros H. cbv zeta.
  apply Script_bind_raises in H as [H|(c & w0 & t0 & t0' & Hc & H & _)].
  { left. by apply Script_try_raises in H. }
  apply Script_try_returns in Hc as (Hc & -> & _).
  apply Script_bind_raises in H as [H|(lg & w1 & t1 & t1' & Hlg & H & _)].
  { right; left. exists c. split; [done|]. by apply Script_lift_raises in H. }
  apply Script_lift_returns in Hlg as [Hlg _].
  apply Script_bind_raises in H as [H|([] & w2 & t2 & t2' & Htp & H & _)].
  { right; right; left. exists c. split; [done|]. rewrite Hlg. cbn [snd].
    by apply Script_lift_raises in H. }
  apply Script_bind_raises in H as [H|(port & w3 & t3 & t3' & Hport & H & _)].
  { do 3 right; left. by apply Script_try_raises in H. }
  apply Script_bind_raises in H as [H|(pool & w4 & t4 & t4' & Hpool & H & _)].
  { do 4 right; left. by apply Script_try_raises in H. }
  apply Script_bind_raises in H as [H|([] & w5 & t5 & t5' & Hcred & H & _)].
  { exfalso. destruct (negb _); [by eapply Script_log_raises|done]. }
  apply Script_bind_raises in H as [H|([] & w6 & t6 & t6' & Hsel & H & _)].
  { exfalso. by eapply Script_log_raises. }
  set (p0 := match env !! "EMBEDDING_PROVIDER" with
             | Some v => if truthy (PStr v) then Some (lower v) else None
             | None => None
             end) in *.
  apply Script_bind_raises in H as [H|(p & w7 & t7 & t7' & Hp & H & _)].
  - rename H into Hr. clearbody p0. revert Hr. repeat case_bool_decide; intros Hr.
    + apply Script_bind_raises in Hr as [Hr|(a & wa & ta & ta' & _ & Hr & _)]; [|done].
      apply key_check_raises in Hr as [Hb ->]. apply negb_true_iff in Hb.
      do 5 right; left. done.
    + apply Script_bind_raises in Hr as [Hr|(a & wa & ta & ta' & _ & Hr & _)]; [|done].
      apply key_check_raises in Hr as [Hb ->]. apply negb_true_iff in Hb.
      do 6 right; left. done.
    + apply Script_bind_raises in Hr as [Hr|(a & wa & ta & ta' & _ & Hr & _)]; [|done].
      apply key_check_raises in Hr as [Hb ->]. apply negb_true_iff in Hb.
      do 7 right. done.
    + apply Script_bind_raises in Hr as [Hr|(a & wa & ta & ta' & _ & Hr & _)]; [|done].
      exfalso. by eapply Script_log_raises.
  - exfalso.
    apply Script_bind_raises in H as [H|([] & w8 & t8 & t8' & _ & H & _)];
      [by eapply Script_log_raises|].
    apply Script_bind_raises in H as [H|([] & w9 & t9 & t9' & _ & H & _)];
      [by eapply Script_log_raises|done].
Qed.

Lemma isEnabledFor_level (w : World) (n : string) (lvl : Z) :
  isEnabledFor w (Named n) lvl = true →
  level (logger_at w (Named n)) ≠ 0 →
  level (logger_at w (Named n)) ≤ lvl.
Proof.
  intros He Hl. destruct (disabled (logger_at w (Named n))) eqn:Hd.
  - unfold isEnabledFor in He. by rewrite Hd in He.
  - rewrite isEnabledFor_own_level in He by done.
    apply andb_true_iff in He as [_ He]. by apply Z.leb_le.
Qed.

(** X24. The module's own records obey the configured level: when
    [LOG_LEVEL] gives a level other than NOTSET, no record below it is
    emitted. With ERROR the informational lines are dropped, and with
    CRITICAL even the error about missing credentials is. *)
Theorem config_module_threshold (int_of_str : string → option Z)
    (rt : Z → Runtime) (env : gmap string string) (w : World) (c : LoggerConfig)
    (z : Z) (em : Emission) :
  load_logger_config int_of_str env = inr c →
  _checkLevel (requested_level (log_level c)) = inr z →
  z ≠ NOTSET →
  em ∈ (config_module int_of_str rt env w).2 →
  z ≤ levelno (emitted em).
Proof.
  intros Hc Hz Hz0 Hem. pose proof (config_module_run int_of_str rt env w) as Hrun.
  rewrite Hc in Hrun.
  destruct (setup_logger c w) as [[lg|e] w1] eqn:Hsetup;
    [|rewrite Hrun in Hem; by apply elem_of_nil in Hem].
  pose proof (third_party_local (load_third_party_level env) w1)
    as (_ & _ & _ & _ & Hsame).
  destruct (setup_third_party_logging _ w1) as [[[]|e] w2];
    [|rewrite Hrun in Hem; by apply elem_of_nil in Hem].
  cbn [snd] in Hsame. destruct Hrun as (rest & Hrest & Hrun). rewrite Hrun in Hem.
  destruct (Hrest w2) as [_ Hlog]. destruct (Hlog em Hem) as (_ & _ & _ & Hen & _).
  apply setup_logger_returns in Hsetup as (z' & f' & Hz' & Hp & -> & ->).
  rewrite logger_at_stage in Hsame.
  assert (z' = z) as -> by congruence.
  apply isEnabledFor_level in Hen; rewrite Hsame in *; cbn [level configured] in *;
    done.
Qed.

Lemma config_module_threshold_witness :
  ∃ em,
    em ∈ (config_module no_int (λ _, sample_runtime) quiet_env fresh_world).2 ∧
    ERROR ≤ levelno (emitted em).
Proof.
  set (t := (config_module no_int (λ _, sample_runtime) quiet_env fresh_world).2).
  assert (∃ em, head t = Some em) as [em Hem] by (vm_compute; by eexists).
  exists em.
  assert (em ∈ t) as Hin by (by apply head_Some_elem_of).
  split; [exact Hin|].
  apply (config_module_threshold no_int (λ _, sample_runtime) quiet_env fresh_world
           (with_log_level "ERROR" default_config) ERROR em);
    [reflexivity|reflexivity|discriminate|exact Hin].
Defined.

Lemma config_module_failures_witness :
  let e := ValueError "OpenAI API key is required when EMBEDDING_PROVIDER is 'openai'." in
  let p := match keyless_env !! "EMBEDDING_PROVIDER" with
           | Some v => if truthy (PStr v) then Some (lower v) else None
           | None => None
           end in
  load_logger_config no_int keyless_env = inl e ∨
  (∃ c, load_logger_config no_int keyless_env = inr c ∧
        (setup_logger c fresh_world).1 = Raises e) ∨
  (∃ c, load_logger_config no_int keyless_env = inr c ∧
        (setup_third_party_logging (load_third_party_level keyless_env)
           (setup_logger c fresh_world).2).1 = Raises e) ∨
  getenv_int no_int keyless_env "DB_PORT" 3306 = inl e ∨
  getenv_int no_int keyless_env "MCP_MAX_POOL_SIZE" 10 = inl e ∨
  (p = Some "openai" ∧ truthy (opt_str (keyless_env !! "OPENAI_API_KEY")) = false ∧
   e = ValueError "OpenAI API key is required when EMBEDDING_PROVIDER is 'openai'.") ∨
  (p = Some "gemini" ∧ truthy (opt_str (keyless_env !! "GEMINI_API_KEY")) = false ∧
   e = ValueError "Gemini API key is required when EMBEDDING_PROVIDER is 'gemini'.") ∨
  (p = Some "huggingface" ∧ truthy (opt_str (keyless_env !! "HF_MODEL")) = false ∧
   e = ValueError "HuggingFace model is required when EMBEDDING_PROVIDER is 'huggingface'.").
Proof.
  set (r := config_module no_int (λ _, sample_runtime) keyless_env fresh_world).
  apply (config_module_failures no_int (λ _, sample_runtime) keyless_env fresh_world
           r.1.2
           (ValueError "OpenAI API key is required when EMBEDDING_PROVIDER is 'openai'.")
           r.2).
  vm_compute. reflexivity.
Defined.
